(** * dubbo-python3: the Hessian2 request encoder and the ZooKeeper router

    A shallow embedding of [dubbo/codec/encoder.py] and of the routing and
    filtering code of [dubbo/client.py].

    Conventions of the embedding.
    - The code runs on Python 3 ([setup.py] asks for 3.6 to 3.9, and
      [client.py] has annotations and imports [urllib.parse]).  A [str] is a
      text: it is modelled by [string], each character a code point (those
      up to 255 are representable), and it has neither a [decode] method nor
      a conversion to [bytearray] without an encoding.  The classes and
      functions of [encoder.py] are modelled as Python 3 runs them; the
      demonstration under [if __name__ == '__main__'] at its end, written
      with [print] statements, is left out.
    - A Python integer is a [Z]; [>>] is [Z.shiftr] and [& 0xff] is
      [Z.land _ 255], both on two's complement.  [struct.pack('>q', _)]
      refuses what is out of the signed 64-bit range.
    - A Python float is a binary64 number, a [spec_float] of the standard
      library's [SpecFloat] at precision 53 and maximal exponent 1024, in
      canonical form.
    - Exceptions are values of [exn]; a computation that can raise returns a
      [result].
    - A [dict] read through [keys()] is the list of its entries in iteration
      order, which is the order of insertion; the request map, the provider fields and the weight table are
      finite maps.
    - The random draws of the router are arguments of its model. *)

From Stdlib Require Import ZArith Lia List String Ascii Bool.
From Stdlib Require Import SpecFloat.
From stdpp Require Import base option list gmap strings.

Open Scope Z_scope.

(** ** Exceptions and the error monad *)

Inductive exn : Type :=
| HessianTypeError
| RegisterException
| KeyError
| StructError
| OverflowError
| ValueError
| TypeError
| IndexError
| AttributeError.

Inductive result (A : Type) : Type :=
| Ok (a : A)
| Raise (e : exn).
Arguments Ok {A} a.
Arguments Raise {A} e.

Definition bind {A B : Type} (m : result A) (k : A -> result B) : result B :=
  match m with
  | Ok a => k a
  | Raise e => Raise e
  end.

Notation "'let*' x ':=' m 'in' k" := (bind m (fun x => k))
  (at level 10, x pattern, m at level 100, k at level 200).

(** ** Constants of [dubbo.common.constants] *)

Module Constants.
(** Modelled from the spec: [dubbo/common/constants.py] is not part of the
    sources at hand; the values are the ones section 4.1 gives for the
    compact integer and string forms (the Hessian2 byte codes). *)
Definition MIN_INT_32 : Z := -2147483648.
Definition MAX_INT_32 : Z := 2147483647.
Definition INT_DIRECT_MIN : Z := -16.
Definition INT_DIRECT_MAX : Z := 47.
Definition BC_INT_ZERO : Z := 0x90.
Definition INT_BYTE_MIN : Z := -2048.
Definition INT_BYTE_MAX : Z := 2047.
Definition BC_INT_BYTE_ZERO : Z := 0xc8.
Definition INT_SHORT_MIN : Z := -262144.
Definition INT_SHORT_MAX : Z := 262143.
Definition BC_INT_SHORT_ZERO : Z := 0xd4.
Definition STRING_DIRECT_MAX : Z := 31.
Definition BC_STRING_DIRECT : Z := 0x00.
Definition STRING_SHORT_MAX : Z := 1023.
Definition BC_STRING_SHORT : Z := 0x30.
(** Modelled from the spec: the four compact double codes are named but not
    valued by the spec; they are the Hessian2 codes. *)
Definition BC_DOUBLE_ZERO : Z := 0x5b.
Definition BC_DOUBLE_ONE : Z := 0x5c.
Definition BC_DOUBLE_BYTE : Z := 0x5d.
Definition BC_DOUBLE_SHORT : Z := 0x5e.
Definition BC_DOUBLE_MILL : Z := 0x5f.
(** Modelled from the spec: the fixed 12-byte prefix of a request frame,
    magic [0xdabb], the flags of a two-way request, status zero and a zero
    request id.  The flags byte [0xc2] is request, two-way and the
    serialization id 2 of the Dubbo protocol. *)
Definition DEFAULT_REQUEST_META : list Z :=
  [0xda; 0xbb; 0xc2; 0x00; 0; 0; 0; 0; 0; 0; 0; 0].
End Constants.
Import Constants.

(** [ord c] of a one-character string. *)
Definition ord (c : ascii) : Z := Z.of_N (N_of_ascii c).

(** A sequence of code points, and the code points of a [str]. *)
Definition unicode : Type := list Z.

Definition code_points (s : string) : unicode :=
  map ord (list_ascii_of_string s).

(** [value.decode('utf-8')] on a [str]: a [str] has no attribute
    [decode]. *)
Definition str_decode (value : string) : result unicode :=
  Raise AttributeError.

(** [bytearray(value)] on a [str]: a string argument without an encoding is
    refused. *)
Definition str_bytearray (value : string) : result (list Z) :=
  Raise TypeError.

(** ** Python floats (binary64) *)

Definition prec : Z := 53.
Definition emax : Z := 1024.

(** [int(value)] for a float: truncation towards zero. *)
Definition int_of_float (f : spec_float) : result Z :=
  match f with
  | S754_zero _ => Ok 0
  | S754_infinity _ => Raise OverflowError
  | S754_nan => Raise ValueError
  | S754_finite s m e => Ok (cond_Zopp s (Z.shiftl (Zpos m) e))
  end.

(** [i == f] between an integer and a float compares the exact values. *)
Definition int_eq_float (i : Z) (f : spec_float) : bool :=
  match f with
  | S754_zero _ => i =? 0
  | S754_finite s m e =>
    if 0 <=? e then i =? cond_Zopp s (Zpos m * 2 ^ e)
    else i * 2 ^ (- e) =? cond_Zopp s (Zpos m)
  | _ => false
  end.

(** The conversion of an integer operand of a float operation. *)
Definition float_of_int (i : Z) : result spec_float :=
  match binary_normalize prec emax i 0 false with
  | S754_infinity _ => Raise OverflowError
  | f => Ok f
  end.

(** The literal [0.001]. *)
Definition float_0_001 : spec_float := S754_finite false 0x10624dd2f1a9fc (-62).

(** Modelled from the spec: [dubbo/common/util.py] is not part of the sources
    at hand; [double_to_long_bits] gives the IEEE-754 64-bit pattern of a
    double, which the encoder then writes big-endian. *)
Definition double_to_long_bits (f : spec_float) : Z :=
  let sign (s : bool) := if s then 2 ^ 63 else 0 in
  match f with
  | S754_zero s => sign s
  | S754_infinity s => sign s + 0x7ff * 2 ^ 52
  | S754_nan => 0x7ff8 * 2 ^ 48
  | S754_finite s m e =>
    if 2 ^ 52 <=? Zpos m
    then sign s + (e + 1075) * 2 ^ 52 + (Zpos m - 2 ^ 52)
    else sign s + Zpos m
  end.

(** ** Values handed to the encoder

    The six kinds the encoder knows, and [VOther] for a value of any other
    type ([None], [bytes], a list, ...), named by its [repr].  The fields
    of an [Object] are the entries of its dictionary as [keys()] lists them,
    in insertion order; a dictionary has no two entries with the same key. *)

#[warnings="-register-all"]
Inductive Value : Type :=
| VBool (b : bool)
| VInt (z : Z)
| VFloat (f : spec_float)
| VStr (s : string)
| VObject (path : string) (fields : list (string * Value))
| VOther (repr : string).

(** [struct.pack('>q', value)]: eight bytes, an error out of range. *)
Definition struct_pack_q (v : Z) : result (list Z) :=
  if (- 2 ^ 63 <=? v) && (v <? 2 ^ 63) then
    let u := v mod 2 ^ 64 in
    Ok [u / 2 ^ 56; (u / 2 ^ 48) mod 256; (u / 2 ^ 40) mod 256;
        (u / 2 ^ 32) mod 256; (u / 2 ^ 24) mod 256; (u / 2 ^ 16) mod 256;
        (u / 2 ^ 8) mod 256; u mod 256]
  else Raise StructError.

(** [x in l] and [l.index(x)] on a list of strings. *)
Definition str_in (x : string) (l : list string) : bool :=
  existsb (String.eqb x) l.

Fixpoint list_index (x : string) (l : list string) : result Z :=
  match l with
  | [] => Raise ValueError
  | y :: l' =>
    if String.eqb y x then Ok 0
    else let* i := list_index x l' in Ok (i + 1)
  end.

(** [len(l)] as a Python integer. *)
Definition len {A : Type} (l : list A) : Z := Z.of_nat (length l).

(** ** [Request._encode_single_value]

    The branches of the type dispatch, one definition each.  The result is
    the list the source builds: its entries are reduced to bytes only at the
    end of [_encode_request_body]. *)

Definition encode_bool (value : bool) : list Z :=
  if value then [ord "T"] else [ord "F"].

Definition encode_int (value : Z) : result (list Z) :=
  if (value >? MAX_INT_32) || (value <? MIN_INT_32) then
    let* packed := struct_pack_q value in
    Ok (ord "L" :: packed)
  else if (INT_DIRECT_MIN <=? value) && (value <=? INT_DIRECT_MAX) then
    Ok [value + BC_INT_ZERO]
  else if (INT_BYTE_MIN <=? value) && (value <=? INT_BYTE_MAX) then
    Ok [BC_INT_BYTE_ZERO + Z.shiftr value 8; value]
  else if (INT_SHORT_MIN <=? value) && (value <=? INT_SHORT_MAX) then
    Ok [BC_INT_SHORT_ZERO + Z.shiftr value 16; Z.shiftr value 8; value]
  else
    Ok [ord "I"; Z.shiftr value 24; Z.shiftr value 16; Z.shiftr value 8; value].

Definition encode_float_compact (int_value : Z) : option (list Z) :=
  if int_value =? 0 then Some [BC_DOUBLE_ZERO]
  else if int_value =? 1 then Some [BC_DOUBLE_ONE]
  else if (- 0x80 <=? int_value) && (int_value <? 0x80) then
    Some [BC_DOUBLE_BYTE; int_value]
  else if (- 0x8000 <=? int_value) && (int_value <? 0x8000) then
    Some [BC_DOUBLE_SHORT; Z.shiftr int_value 8; int_value]
  else None.

Definition encode_float_general (value : spec_float) : result (list Z) :=
  let* thousand := float_of_int 1000 in
  let* mills := int_of_float (SFmul prec emax value thousand) in
  let* fmills := float_of_int mills in
  if SFeqb (SFmul prec emax float_0_001 fmills) value
     && (MIN_INT_32 <=? mills) && (mills <=? MAX_INT_32)
  then
    Ok [BC_DOUBLE_MILL; Z.shiftr mills 24; Z.shiftr mills 16;
        Z.shiftr mills 8; mills]
  else
    let bits := double_to_long_bits value in
    Ok [ord "D"; Z.shiftr bits 56; Z.shiftr bits 48; Z.shiftr bits 40;
        Z.shiftr bits 32; Z.shiftr bits 24; Z.shiftr bits 16;
        Z.shiftr bits 8; bits].

Definition encode_float (value : spec_float) : result (list Z) :=
  let* int_value := int_of_float value in
  match (if int_eq_float int_value value
         then encode_float_compact int_value else None) with
  | Some r => Ok r
  | None => encode_float_general value
  end.

Definition encode_str (value : string) : result (list Z) :=
  let* u := str_decode value in
  let length := len u in
  let head :=
    if length <=? STRING_DIRECT_MAX then [BC_STRING_DIRECT + length]
    else if length <=? STRING_SHORT_MAX then
      [BC_STRING_SHORT + Z.shiftr length 8; length]
    else [ord "S"; Z.shiftr length 8; length] in
  let* payload := str_bytearray value in
  Ok (head ++ payload).

Fixpoint encode_strs (names : list string) : result (list Z) :=
  match names with
  | [] => Ok []
  | n :: names' =>
    let* r := encode_str n in
    let* rs := encode_strs names' in
    Ok (r ++ rs)
  end.

(** The class definition an [Object] emits when its path is not yet in the
    class table, and the table afterwards. *)
Definition encode_class_def (classes : list string) (path : string)
    (field_names : list string) : result (list Z * list string) :=
  if str_in path classes then Ok ([], classes)
  else
    let* p := encode_str path in
    let* n := encode_int (len field_names) in
    let* names := encode_strs field_names in
    Ok (ord "C" :: p ++ n ++ names, classes ++ [path]).

(** The reference to the class of an [Object]. *)
Definition encode_class_ref (classes : list string) (path : string)
    : result (list Z) :=
  let* class_id := list_index path classes in
  if class_id <=? 0xf then Ok [Z.land (class_id + 0x60) 0xff]
  else
    let* c := encode_int class_id in
    Ok (ord "O" :: c).

(** [_encode_single_value], with the class table [self.__classes] threaded
    through: the table before, the bytes and the table after. *)
Fixpoint _encode_single_value (classes : list string) (value : Value)
    {struct value} : result (list Z * list string) :=
  match value with
  | VBool b => Ok (encode_bool b, classes)
  | VInt z => let* r := encode_int z in Ok (r, classes)
  | VFloat f => let* r := encode_float f in Ok (r, classes)
  | VStr s => let* r := encode_str s in Ok (r, classes)
  | VObject path fields =>
    let field_names := map fst fields in
    let* (def, classes1) := encode_class_def classes path field_names in
    let* ref := encode_class_ref classes1 path in
    let* (vals, classes2) :=
      (fix encode_fields (fs : list (string * Value)) (cl : list string)
         : result (list Z * list string) :=
         match fs with
         | [] => Ok ([], cl)
         | (_, v) :: fs' =>
           let* (r, cl1) := _encode_single_value cl v in
           let* (rs, cl2) := encode_fields fs' cl1 in
           Ok (r ++ rs, cl2)
         end) fields classes1 in
    Ok (def ++ ref ++ vals, classes2)
  | VOther _ => Raise HessianTypeError
  end.

(** The loop over the field values, as a function of its own. *)
Fixpoint encode_fields (fs : list (string * Value)) (cl : list string)
    : result (list Z * list string) :=
  match fs with
  | [] => Ok ([], cl)
  | (_, v) :: fs' =>
    let* (r, cl1) := _encode_single_value cl v in
    let* (rs, cl2) := encode_fields fs' cl1 in
    Ok (r ++ rs, cl2)
  end.

(** [value[key]] on the dictionary of an object. *)
Fixpoint object_getitem (fields : list (string * Value)) (key : string)
    : result Value :=
  match fields with
  | [] => Raise KeyError
  | (k, v) :: fields' =>
    if String.eqb k key then Ok v else object_getitem fields' key
  end.

(** The same loop as the source writes it, over the field names and with
    [value[field_name]]; [encode_fields_by_key_eq] shows it is
    [encode_fields] on a dictionary. *)
Fixpoint encode_fields_by_key (fields : list (string * Value))
    (field_names : list string) (cl : list string)
    : result (list Z * list string) :=
  match field_names with
  | [] => Ok ([], cl)
  | field_name :: names' =>
    let* v := object_getitem fields field_name in
    let* (r, cl1) := _encode_single_value cl v in
    let* (rs, cl2) := encode_fields_by_key fields names' cl1 in
    Ok (r ++ rs, cl2)
  end.

(** The loop over the arguments of a request. *)
Fixpoint encode_values (vs : list Value) (cl : list string)
    : result (list Z * list string) :=
  match vs with
  | [] => Ok ([], cl)
  | v :: vs' =>
    let* (r, cl1) := _encode_single_value cl v in
    let* (rs, cl2) := encode_values vs' cl1 in
    Ok (r ++ rs, cl2)
  end.

(** ** [Request]

    An entry of the request map is a value of the kinds above, or a list, a
    tuple or another iterable that is none of the six kinds, given by the
    values it yields ([EList]); [DubboClient.call] always stores a list or a
    tuple under ['arguments'].  Under that key a [VOther] stands for a value
    that is not iterable. *)

Inductive entry : Type :=
| EValue (v : Value)
| EList (vs : list Value).

Record Request : Type := mkRequest {
  body : gmap string entry;
  classes : list string
}.

(** [Request.__init__]. *)
Definition Request_init (request : gmap string entry) : Request :=
  mkRequest request [].

(** [d[key]] on the request map. *)
Definition getitem (d : gmap string entry) (key : string) : result entry :=
  match d !! key with
  | Some e => Ok e
  | None => Raise KeyError
  end.

(** [path.replace('.', '/')]. *)
Fixpoint replace_dot (path : string) : string :=
  match path with
  | EmptyString => EmptyString
  | String c rest =>
    String (if Ascii.eqb c "." then "/"%char else c) (replace_dot rest)
  end.

(** [Request._get_parameter_types]. *)
Fixpoint _get_parameter_types (arguments : list Value) : result string :=
  match arguments with
  | [] => Ok ""%string
  | argument :: rest =>
    let* t :=
      match argument with
      | VBool _ => Ok "Z"%string
      | VInt z =>
        if (MIN_INT_32 <=? z) && (z <=? MAX_INT_32)
        then Ok "I"%string else Ok "J"%string
      | VFloat _ => Ok "D"%string
      | VStr _ => Ok "Ljava/lang/String;"%string
      | VObject path _ => Ok ("L" ++ replace_dot path ++ ";")%string
      | VOther _ => Raise HessianTypeError
      end in
    let* ts := _get_parameter_types rest in
    Ok (t ++ ts)%string
  end.

(** A value or a list handed to [_encode_single_value]; a list is none of the
    types it knows. *)
Definition encode_entry (cl : list string) (e : entry)
    : result (list Z * list string) :=
  match e with
  | EValue v => _encode_single_value cl v
  | EList _ => Raise HessianTypeError
  end.

(** [for argument in arguments]: the items of a list or a tuple; the
    one-character strings of a [str]; an [Object] has [__getitem__] and no
    [__iter__], so it is asked for its item [0], which is no key of its
    dictionary; a value of another kind is not iterable. *)
Definition iter_arguments (e : entry) : result (list Value) :=
  match e with
  | EList vs => Ok vs
  | EValue (VStr s) =>
    Ok (map (fun c => VStr (String c EmptyString)) (list_ascii_of_string s))
  | EValue (VObject _ _) => Raise KeyError
  | EValue _ => Raise TypeError
  end.

(** The final loop of [_encode_request_body]: [body[i] & 0xff]. *)
Definition mask_bytes (l : list Z) : list Z := map (fun b => Z.land b 0xff) l.

(** The loop [for key in attachments.keys()]. *)
Fixpoint encode_attachments (kvs : list (string * entry)) (cl : list string)
    : result (list Z * list string) :=
  match kvs with
  | [] => Ok ([], cl)
  | (key, value) :: kvs' =>
    let* (k, cl1) := _encode_single_value cl (VStr key) in
    let* (v, cl2) := encode_entry cl1 value in
    let* (rs, cl3) := encode_attachments kvs' cl2 in
    Ok (k ++ v ++ rs, cl3)
  end.

(** [Request._encode_request_body]: the body and the instance afterwards.
    The attachments are listed in the order the dictionary literal has,
    which is the order a [dict] keeps. *)
Definition _encode_request_body (self : Request)
    : result (list Z * Request) :=
  let* dubbo_version := getitem (body self) "dubbo_version" in
  let* path := getitem (body self) "path" in
  let* version := getitem (body self) "version" in
  let* method := getitem (body self) "method" in
  let* arguments := getitem (body self) "arguments" in
  let* (b1, c1) := encode_entry (classes self) dubbo_version in
  let* (b2, c2) := encode_entry c1 path in
  let* (b3, c3) := encode_entry c2 version in
  let* (b4, c4) := encode_entry c3 method in
  let* args := iter_arguments arguments in
  let* types := _get_parameter_types args in
  let* (b5, c5) := _encode_single_value c4 (VStr types) in
  let* (b6, c6) := encode_values args c5 in
  let attachments :=
    [("path"%string, path); ("interface"%string, path);
     ("version"%string, version)] in
  let* (b7, c7) := encode_attachments attachments c6 in
  Ok (mask_bytes (b1 ++ b2 ++ b3 ++ b4 ++ b5 ++ b6 ++ [ord "H"] ++ b7
                  ++ [ord "Z"]),
      mkRequest (body self) c7).

(** Modelled from the spec: [num_2_byte_list] of [dubbo/common/util.py] is
    not part of the sources at hand; it gives the bytes of a number, most
    significant first and without leading zeros, which
    [get_request_body_length] then pads to the four bytes of the big-endian
    length field. *)
Fixpoint num_2_byte_list_loop (fuel : nat) (num : Z) (acc : list Z) : list Z :=
  match fuel with
  | O => acc
  | S fuel' =>
    if num >? 0
    then num_2_byte_list_loop fuel' (Z.shiftr num 8) (Z.land num 0xff :: acc)
    else acc
  end.

Definition num_2_byte_list (num : Z) : list Z :=
  num_2_byte_list_loop (S (Z.to_nat (Z.log2 num))) num [].

(** The loop of [get_request_body_length]: zeros in front up to four bytes. *)
Fixpoint pad_front (missing : nat) (l : list Z) : list Z :=
  match missing with
  | O => l
  | S k => pad_front k (0 :: l)
  end.

(** [get_request_body_length]. *)
Definition get_request_body_length (body : list Z) : list Z :=
  let request_body_length := num_2_byte_list (len body) in
  pad_front (4 - length request_body_length) request_body_length.

(** [bytearray(l)] for a list of integers. *)
Definition bytearray (l : list Z) : result (list Z) :=
  if forallb (fun b => (0 <=? b) && (b <? 256)) l then Ok l
  else Raise ValueError.

(** [Request.encode]: the frame and the instance afterwards. *)
Definition encode (self : Request) : result (list Z * Request) :=
  let* (request_body, self') := _encode_request_body self in
  let request_head :=
    DEFAULT_REQUEST_META ++ get_request_body_length request_body in
  let* frame := bytearray (request_head ++ request_body) in
  Ok (frame, self').

(** ** Request instances

    Two [Request] objects are two cells of a heap; [encode] on one of them
    works on the class table of that cell. *)



(** ** [DubboClient] *)

Record ZkRegister : Type := mkZkRegister {
  hosts : gmap string (list string);
  weights : gmap string (gmap string Z)
}.

Record DubboClient : Type := mkDubboClient {
  client_interface : string;
  client_version : option string;
  client_dubbo_version : string;
  client_group : option string;
  client_zk_register : option ZkRegister;
  client_host : option string
}.

(** The truth value of an optional string: [None] and [''] are false. *)
Definition truthy (o : option string) : bool :=
  match o with
  | Some s => negb (String.eqb s "")
  | None => false
  end.

(** [DubboClient.__init__]. *)
Definition DubboClient_init (interface : string) (version : option string)
    (dubbo_version : string) (group : option string)
    (zk_register : option ZkRegister) (host : option string)
    : result DubboClient :=
  match zk_register, truthy host with
  | None, false => Raise RegisterException
  | _, _ =>
    Ok (mkDubboClient interface version dubbo_version group zk_register host)
  end.

(** The request map [DubboClient.call] builds for a method and its argument
    list. *)
Definition request_param (self : DubboClient) (method : string)
    (args : list Value) : gmap string entry :=
  let p0 : gmap string entry :=
    <["arguments"%string := EList args]>
      (<["method"%string := EValue (VStr method)]>
        (<["path"%string := EValue (VStr (client_interface self))]>
          (<["dubbo_version"%string :=
               EValue (VStr (client_dubbo_version self))]> ∅))) in
  let p1 :=
    if truthy (client_group self)
    then <["group"%string := EValue (VStr (default "" (client_group self)))]> p0
    else p0 in
  if truthy (client_version self)
  then <["version"%string := EValue (VStr (default "" (client_version self)))]> p1
  else p1.

(** Modelled from the spec: [dubbo/connection/connections.py] is not part of
    the sources at hand; [connection_pool.get(host, request_param, timeout)]
    builds the frame it sends as [Request(request_param).encode()].
    [call_frame] is that frame for a call through a direct host. *)
Definition call_frame (self : DubboClient) (method : string)
    (args : list Value) : result (list Z) :=
  let* (frame, _) := encode (Request_init (request_param self method args)) in
  Ok frame.

(** The body of that frame. *)
Definition call_body (self : DubboClient) (method : string)
    (args : list Value) : result (list Z) :=
  let* (b, _) :=
    _encode_request_body (Request_init (request_param self method args)) in
  Ok b.

(** ** [ZkRegister]: provider filtering *)

Record provider : Type := mkProvider {
  scheme : string;
  host : string;
  provider_path : string;
  fields : gmap string string
}.

(** [s.split(',')]. *)
Fixpoint split_comma (s : string) : list string :=
  match s with
  | EmptyString => [EmptyString]
  | String c rest =>
    if Ascii.eqb c ","
    then EmptyString :: split_comma rest
    else match split_comma rest with
         | h :: t => String c h :: t
         | [] => [String c EmptyString]
         end
  end.

(** [ZkRegister.is_contain]; the [None] it falls off with is false. *)
Definition is_contain (contains_value value : option string) : bool :=
  if negb (truthy contains_value) then false
  else if negb (truthy value) then false
  else str_in (default "" value) (split_comma (default "" contains_value)).

(** [a == b] between the result of [fields.get] and a consumer value. *)
Definition opt_str_eqb (a b : option string) : bool :=
  match a, b with
  | Some x, Some y => String.eqb x y
  | None, None => true
  | _, _ => false
  end.

Definition is_none (o : option string) : bool :=
  match o with None => true | Some _ => false end.

(** The lambda of [_filter_with_group_version]; [and] binds tighter than
    [or]. *)
Definition keep_provider (consumer_group consumer_version : option string)
    (p : provider) : bool :=
  is_none consumer_group
  || opt_str_eqb (Some "*"%string) consumer_group
  || opt_str_eqb (fields p !! "group"%string) consumer_group
  || is_contain consumer_group (fields p !! "group"%string)
  || (is_contain consumer_group (fields p !! "default.group"%string)
      && (is_none consumer_version
          || opt_str_eqb (Some "*"%string) consumer_version
          || opt_str_eqb (fields p !! "version"%string) consumer_version
          || is_contain consumer_version (fields p !! "version"%string))).

(** [ZkRegister._filter_with_group_version]. *)
Definition _filter_with_group_version (providers : list provider)
    (consumer_group consumer_version : option string) : list provider :=
  List.filter (keep_provider consumer_group consumer_version) providers.

(** ** [ZkRegister]: weighted routing

    The weight table holds for a host the integer [int(...)] makes of its
    entry.  The random draws are arguments: [rnd] is the index
    [random.choice] picks, or the value [random.randint] returns. *)

Definition sum_list (l : list Z) : Z := fold_right Z.add 0 l.

(** [random.randint(a, b)] returning [r]; an empty range is an error. *)
Definition randint (a b r : Z) : result Z :=
  if b <? a then Raise ValueError else Ok r.

(** The loop [for i in range(len(hosts))] of [_routing_with_wight]. *)
Fixpoint routing_loop (hosts : list string) (hosts_weight : list Z) (hit : Z)
    (range : list nat) : result string :=
  match range with
  | [] => Raise RegisterException
  | i :: range' =>
    if hit <=? sum_list (take (i + 1) hosts_weight) then
      match hosts !! i with
      | Some h => Ok h
      | None => Raise IndexError
      end
    else routing_loop hosts hosts_weight hit range'
  end.

Definition hosts_weight_of (weights : gmap string Z) (hosts : list string)
    : list Z :=
  map (fun host => default 100 (weights !! host)) hosts.

(** [ZkRegister._routing_with_wight]. *)
Definition _routing_with_wight (self : ZkRegister) (interface : string)
    (rnd : Z) : result string :=
  match hosts self !! interface with
  | None => Raise KeyError
  | Some hs =>
    if bool_decide (hs = []) then Raise RegisterException
    else
      match weights self !! interface with
      | None =>
        match hs !! Z.to_nat rnd with Some h => Ok h | None => Raise IndexError end
      | Some ws =>
        if bool_decide (ws = ∅) then
          match hs !! Z.to_nat rnd with
          | Some h => Ok h
          | None => Raise IndexError
          end
        else
          let hosts_weight := hosts_weight_of ws hs in
          let* hit := randint 0 (sum_list hosts_weight - 1) rnd in
          routing_loop hs hosts_weight hit (seq 0 (length hs))
      end
  end.

(** * Specifications

    The predicates and the reference definitions the properties are stated
    with, and the data of the scenarios. *)

(** An unsigned 8-bit value. *)
Definition is_byte (b : Z) : Prop := 0 <= b < 256.

(** The length prefix of a string of [n] code points as section 4.1 words
    it; the two bytes after ['S'] are [n] as a big-endian 16-bit number. *)
Definition string_prefix (n : Z) : list Z :=
  if n <=? 31 then [BC_STRING_DIRECT + n]
  else if n <=? 1023 then [BC_STRING_SHORT + n / 256; n mod 256]
  else [ord "S"; (n / 256) mod 256; n mod 256].

Module StringSpec.
(** The string encoding as section 4.1 words it: the prefix for the number
    of code points, then the UTF-8 encoding of the string. *)

Definition utf8_encode_cp (cp : Z) : list Z :=
  if cp <? 0x80 then [cp]
  else if cp <? 0x800 then [0xc0 + cp / 64; 0x80 + cp mod 64]
  else if cp <? 0x10000 then
    [0xe0 + cp / 4096; 0x80 + (cp / 64) mod 64; 0x80 + cp mod 64]
  else
    [0xf0 + cp / 262144; 0x80 + (cp / 4096) mod 64;
     0x80 + (cp / 64) mod 64; 0x80 + cp mod 64].

Definition utf8_encode (u : unicode) : list Z :=
  concat (map utf8_encode_cp u).

Definition encode_string (s : string) : list Z :=
  string_prefix (len (code_points s)) ++ utf8_encode (code_points s).
End StringSpec.

(** The number a list of bytes denotes, most significant byte first. *)
Definition be_value (l : list Z) : Z :=
  fold_left (fun acc b => acc * 256 + b) l 0.

(** The signed reading of a 64-bit pattern. *)
Definition signed64 (u : Z) : Z := if u <? 2 ^ 63 then u else u - 2 ^ 64.

(** [l] is the big-endian signed 64-bit representation of [v]. *)
Definition is_int64_be (l : list Z) (v : Z) : Prop :=
  length l = 8%nat /\ Forall is_byte l /\ signed64 (be_value l) = v.

(** C5 as the claim words it, at one integer [v]. *)
Definition C5_claim_at (v : Z) : Prop :=
  (-16 <= v <= 47 ->
   _encode_single_value [] (VInt v) = Ok ([v + 0x90], []))
  /\ (v < MIN_INT_32 \/ MAX_INT_32 < v ->
      _get_parameter_types [VInt v] = Ok "J"%string
      /\ exists l, _encode_single_value [] (VInt v) = Ok (ord "L" :: l, [])
                   /\ is_int64_be l v).

Module FilterSpec.
(** The matching rule as section 4.5 words it. *)

(** The consumer value is a comma-separated set containing the field. *)
Definition in_comma_set (consumer field : option string) : bool :=
  match consumer, field with
  | Some c, Some f => str_in f (split_comma c)
  | _, _ => false
  end.

(** A null or ["*"] consumer value. *)
Definition any_value (consumer : option string) : bool :=
  is_none consumer || opt_str_eqb (Some "*"%string) consumer.

(** The group clause and the version clause. *)
Definition groupMatches (consumerGroup : option string) (p : provider)
    : bool :=
  any_value consumerGroup
  || opt_str_eqb (fields p !! "group"%string) consumerGroup
  || in_comma_set consumerGroup (fields p !! "group"%string)
  || in_comma_set consumerGroup (fields p !! "default.group"%string).

Definition versionMatches (consumerVersion : option string) (p : provider)
    : bool :=
  any_value consumerVersion
  || opt_str_eqb (fields p !! "version"%string) consumerVersion
  || in_comma_set consumerVersion (fields p !! "version"%string).

(** [groupMatches AND versionMatches]. *)
Definition filter_spec (providers : list provider)
    (consumerGroup consumerVersion : option string) : list provider :=
  List.filter
    (fun p => groupMatches consumerGroup p && versionMatches consumerVersion p)
    providers.
End FilterSpec.

(** A provider of group [g1] at version [2.0.0]. *)
Definition provider_g1_v2 : provider :=
  mkProvider "dubbo" "10.0.0.1:20880" "/com.example.Svc"
    (<["group"%string := "g1"%string]>
       (<["version"%string := "2.0.0"%string]> ∅)).

Module RouterSpec.
(** The pick of section 4.6: the smallest [i] with [hit < w_0 + ... + w_i]. *)
Fixpoint pick (hosts : list string) (w : list Z) (hit : Z) (acc : Z)
    : option string :=
  match hosts, w with
  | h :: hosts', wi :: w' =>
    if hit <? acc + wi then Some h else pick hosts' w' hit (acc + wi)
  | _, _ => None
  end.
End RouterSpec.

(** The routing entry of scenario 6: hosts A and B, weights 25 and 75. *)
Definition zk_25_75 : ZkRegister :=
  mkZkRegister
    (<["I"%string := ["A"%string; "B"%string]]> ∅)
    (<["I"%string :=
        <["A"%string := 25]> (<["B"%string := 75]> ∅)]> ∅).

(** The client of scenario 1: a direct host, no version, no group. *)
Definition client_scenario_1 : DubboClient :=
  mkDubboClient "com.example.Svc" None "2.6.1" None None
    (Some "127.0.0.1:20880"%string).

(** A value all of whose parts are of the six kinds. *)
Fixpoint supported (v : Value) : bool :=
  match v with
  | VObject _ fields =>
    (fix all (fs : list (string * Value)) : bool :=
       match fs with
       | [] => true
       | (_, fv) :: fs' => supported fv && all fs'
       end) fields
  | VOther _ => false
  | _ => true
  end.

(** The fields of an object are supported. *)
Definition supported_fields (fs : list (string * Value)) : bool :=
  forallb supported (map snd fs).

(** What a class table lets through: a bool, an integer, a float, and an
    object whose class is in the table and whose field values are let
    through in turn. *)
Fixpoint passes (cl : list string) (v : Value) : bool :=
  match v with
  | VBool _ | VInt _ | VFloat _ => true
  | VStr _ => false
  | VObject path fields =>
    str_in path cl
    && (fix all (fs : list (string * Value)) : bool :=
          match fs with
          | [] => true
          | (_, fv) :: fs' => passes cl fv && all fs'
          end) fields
  | VOther _ => false
  end.

Definition passes_fields (cl : list string) (fs : list (string * Value))
    : bool :=
  forallb (passes cl) (map snd fs).

(** An encoding that returns leaves the class table as it was, and only on
    a value the table lets through. *)
Definition fixed_spec (v : Value) : Prop :=
  forall (cl cl' : list string) (raw : list Z),
    _encode_single_value cl v = Ok (raw, cl') ->
    cl' = cl /\ passes cl v = true.

(** A supported value never raises [HessianTypeError]. *)
Definition never_type_error (v : Value) : Prop :=
  supported v = true ->
  forall (cl : list string) (e : exn),
    _encode_single_value cl v = Raise e -> e <> HessianTypeError.

(** An object with a field of none of the six kinds. *)
Definition object_none : Value :=
  VObject "a.B" [("x"%string, VOther "None")].

(** Two objects of one class, as two arguments of a request. *)
Definition two_objects : list Value :=
  [VObject "a.B" [("n"%string, VInt 1)]; VObject "a.B" [("n"%string, VInt 2)]].

(** The request of scenario 2, with the version the encoder reads. *)
Definition request_m_42 : gmap string entry :=
  <["dubbo_version"%string := EValue (VStr "2.6.1")]>
    (<["path"%string := EValue (VStr "com.example.Svc")]>
       (<["version"%string := EValue (VStr "1.0.0")]>
          (<["method"%string := EValue (VStr "m")]>
             (<["arguments"%string := EList [VInt 42]]> ∅)))).

(** The keys [_encode_request_body] reads. *)
Definition encoded_keys : list string :=
  ["dubbo_version"; "path"; "version"; "method"; "arguments"]%string.


(** * The rest of the code: reference definitions *)

(** The signed reading of a 32-bit pattern. *)
Definition signed32 (u : Z) : Z := if u <? 2 ^ 31 then u else u - 2 ^ 32.

(** The reading of an encoded integer, by its first byte: the five forms
    [_encode_single_value] writes. *)
Definition decode_int (wire : list Z) : option Z :=
  match wire with
  | [b0] =>
    if (0x80 <=? b0) && (b0 <=? 0xbf) then Some (b0 - BC_INT_ZERO) else None
  | [b0; b1] =>
    if (0xc0 <=? b0) && (b0 <=? 0xcf)
    then Some ((b0 - BC_INT_BYTE_ZERO) * 256 + b1) else None
  | [b0; b1; b2] =>
    if (0xd0 <=? b0) && (b0 <=? 0xd7)
    then Some ((b0 - BC_INT_SHORT_ZERO) * 65536 + b1 * 256 + b2) else None
  | [b0; b1; b2; b3; b4] =>
    if b0 =? ord "I" then Some (signed32 (be_value [b1; b2; b3; b4]))
    else None
  | [b0; b1; b2; b3; b4; b5; b6; b7; b8] =>
    if b0 =? ord "L"
    then Some (signed64 (be_value [b1; b2; b3; b4; b5; b6; b7; b8]))
    else None
  | _ => None
  end.

(** The signed readings of an 8-bit and of a 16-bit pattern. *)
Definition signed8 (u : Z) : Z := if u <? 2 ^ 7 then u else u - 2 ^ 8.
Definition signed16 (u : Z) : Z := if u <? 2 ^ 15 then u else u - 2 ^ 16.

(** What the bytes of an encoded double say about the double [f]: the
    compact forms carry an integer that [f] equals, the mill form an integer
    whose product by [0.001] equals [f], the ['D'] form the 64-bit pattern. *)
Definition float_wire_reads (wire : list Z) (f : spec_float) : Prop :=
  match wire with
  | [t] =>
    (t = BC_DOUBLE_ZERO /\ int_eq_float 0 f = true)
    \/ (t = BC_DOUBLE_ONE /\ int_eq_float 1 f = true)
  | [t; b] => t = BC_DOUBLE_BYTE /\ int_eq_float (signed8 b) f = true
  | [t; b1; b2] =>
    t = BC_DOUBLE_SHORT
    /\ int_eq_float (signed16 (be_value [b1; b2])) f = true
  | [t; b1; b2; b3; b4] =>
    t = BC_DOUBLE_MILL
    /\ exists fmills,
        float_of_int (signed32 (be_value [b1; b2; b3; b4])) = Ok fmills
        /\ SFeqb (SFmul prec emax float_0_001 fmills) f = true
  | [t; b1; b2; b3; b4; b5; b6; b7; b8] =>
    t = ord "D"
    /\ be_value [b1; b2; b3; b4; b5; b6; b7; b8]
       = double_to_long_bits f mod 2 ^ 64
  | _ => False
  end.

(** ** [Object]: the dictionary of an object

    [self.__values] is the list of the entries in insertion order; a key is
    a value, checked to be a [str]. *)

(** [d[k] = v] on the entries: the entry of [k] is replaced where it is, a
    new key is added at the end. *)
Fixpoint dict_set (d : list (string * Value)) (k : string) (v : Value)
    : list (string * Value) :=
  match d with
  | [] => [(k, v)]
  | (k', v') :: d' =>
    if String.eqb k' k then (k, v) :: d' else (k', v') :: dict_set d' k v
  end.

(** [k in d]. *)
Definition dict_contains (d : list (string * Value)) (k : string) : bool :=
  str_in k (map fst d).

(** [del d[k]]. *)
Fixpoint dict_del (d : list (string * Value)) (k : string)
    : result (list (string * Value)) :=
  match d with
  | [] => Raise KeyError
  | (k', v') :: d' =>
    if String.eqb k' k then Ok d'
    else let* r := dict_del d' k in Ok ((k', v') :: r)
  end.

(** [Object.__init__]: the path must be a [str]. *)
Definition Object_init (path : Value) : result Value :=
  match path with
  | VStr p => Ok (VObject p [])
  | _ => Raise ValueError
  end.

(** [Object.__setitem__]: the key must be a [str]. *)
Definition Object_setitem (fields : list (string * Value)) (key value : Value)
    : result (list (string * Value)) :=
  match key with
  | VStr k => Ok (dict_set fields k value)
  | _ => Raise ValueError
  end.

(** [Object.__getitem__], [__delitem__], [__contains__] and [keys]. *)
Definition Object_getitem (fields : list (string * Value)) (key : string)
    : result Value := object_getitem fields key.

Definition Object_delitem (fields : list (string * Value)) (key : string)
    : result (list (string * Value)) := dict_del fields key.

Definition Object_contains (fields : list (string * Value)) (key : string)
    : bool := dict_contains fields key.

Definition Object_keys (fields : list (string * Value)) : list string :=
  map fst fields.

(** ['sep'.join(items)] for the comma, and a string without a comma. *)
Fixpoint join_comma (items : list string) : string :=
  match items with
  | [] => EmptyString
  | [x] => x
  | x :: rest => (x ++ String "," (join_comma rest))%string
  end.

Fixpoint has_comma (s : string) : bool :=
  match s with
  | EmptyString => false
  | String c rest => Ascii.eqb c "," || has_comma rest
  end.

(** ** [ZkRegister]: discovery and the provider watch

    ZooKeeper is seen through what it answers: the children of the node
    that is listed.  [parse_url] of [dubbo/common/util.py] is not part of the
    sources at hand and is an argument of the model, as are the address, the
    process id and the clock that [_register_consumer] reads.  The znode
    [_register_consumer] creates is outside the model: its model gives the
    parent path and the consumer URL before [quote]. *)

(** [s.split(sep)] for a one-character separator. *)
Fixpoint split_on (sep : ascii) (s : string) : list string :=
  match s with
  | EmptyString => [EmptyString]
  | String c rest =>
    if Ascii.eqb c sep
    then EmptyString :: split_on sep rest
    else match split_on sep rest with
         | h :: t => String c h :: t
         | [] => [String c EmptyString]
         end
  end.

Fixpoint has_char (sep : ascii) (s : string) : bool :=
  match s with
  | EmptyString => false
  | String c rest => Ascii.eqb c sep || has_char sep rest
  end.

(** [sep.join(items)]. *)
Fixpoint join (sep : string) (items : list string) : string :=
  match items with
  | [] => EmptyString
  | [x] => x
  | x :: rest => (x ++ sep ++ join sep rest)%string
  end.

(** Modelled from the spec: [DUBBO_ZK_PROVIDERS] and [DUBBO_ZK_CONSUMERS] of
    [dubbo/common/constants.py] are not part of the sources at hand; section
    4.5 gives the paths [/dubbo/I/providers] and [/dubbo/I/consumers]. *)
Definition DUBBO_ZK_PROVIDERS (interface : string) : string :=
  ("/dubbo/" ++ interface ++ "/providers")%string.
Definition DUBBO_ZK_CONSUMERS (interface : string) : string :=
  ("/dubbo/" ++ interface ++ "/consumers")%string.

(** The part of a string before the first [sep], the whole string when it
    has none. *)
Fixpoint before_char (sep : ascii) (s : string) : string :=
  match s with
  | EmptyString => EmptyString
  | String c rest =>
    if Ascii.eqb c sep then EmptyString else String c (before_char sep rest)
  end.

(** [path.split('/')[2]]. *)
Definition interface_of_path (path : string) : result string :=
  match split_on "/" path !! 2%nat with
  | Some i => Ok i
  | None => Raise IndexError
  end.

(** The children parsed, those of scheme [dubbo] kept, then the filter. *)
Definition listed_providers (parse_url : string -> provider)
    (children : list string) (consumer_group consumer_version : option string)
    : list provider :=
  _filter_with_group_version
    (List.filter (fun p => String.eqb (scheme p) "dubbo")
       (map parse_url children))
    consumer_group consumer_version.

(** [_watch_children], the watch [_warp_watch] makes: the event path and
    the children ZooKeeper lists for it. *)
Definition _watch_children (parse_url : string -> provider)
    (consumer_group consumer_version : option string) (self : ZkRegister)
    (path : string) (children : list string) : result ZkRegister :=
  let* interface := interface_of_path path in
  let providers :=
    listed_providers parse_url children consumer_group consumer_version in
  match providers with
  | [] => Ok (mkZkRegister (<[interface := []]> (hosts self)) (weights self))
  | _ =>
    Ok (mkZkRegister (<[interface := map host providers]> (hosts self))
          (weights self))
  end.

(** [d[key]] on the fields of a provider. *)
Definition field (d : gmap string string) (key : string) : result string :=
  match d !! key with
  | Some v => Ok v
  | None => Raise KeyError
  end.

(** [sorted(fields.items())]: insertion in the order of the keys. *)
Fixpoint insert_sorted (kv : string * string) (l : list (string * string))
    : list (string * string) :=
  match l with
  | [] => [kv]
  | kv' :: l' =>
    if String.leb (fst kv) (fst kv') then kv :: l
    else kv' :: insert_sorted kv l'
  end.

Definition sorted_items (l : list (string * string))
    : list (string * string) :=
  fold_right insert_sorted [] l.

(** [ZkRegister._register_consumer], up to the znode: the path of the
    consumers of the interface and the consumer URL. *)
Definition _register_consumer (application_name ip pid timestamp : string)
    (providers : list provider) : result (string * string) :=
  match providers !! 0%nat with
  | None => Raise IndexError
  | Some provider =>
    let provider_fields := fields provider in
    let consumer := ("consumer://" ++ ip ++ provider_path provider ++ "?")%string in
    let* dubbo := field provider_fields "dubbo" in
    let* interface := field provider_fields "interface" in
    let* methods := field provider_fields "methods" in
    let fields0 : list (string * string) :=
      [("application", application_name); ("category", "consumers");
       ("check", "false"); ("connected", "true"); ("dubbo", dubbo);
       ("interface", interface); ("methods", methods); ("pid", pid);
       ("side", "consumer"); ("timestamp", timestamp)]%string in
    let fields1 :=
      if truthy (provider_fields !! "revision"%string)
      then fields0 ++ [("revision"%string,
                        default ""%string (provider_fields !! "revision"%string))]
      else fields0 in
    let fields2 :=
      if truthy (provider_fields !! "version"%string)
      then fields1 ++ [("version"%string,
                        default ""%string (provider_fields !! "version"%string))]
      else fields1 in
    let params :=
      map (fun kv => (fst kv ++ "=" ++ snd kv)%string) (sorted_items fields2) in
    Ok (DUBBO_ZK_CONSUMERS interface, (consumer ++ join "&" params)%string)
  end.

(** [ZkRegister._get_providers_from_zk]: the registry afterwards. *)
Definition _get_providers_from_zk (parse_url : string -> provider)
    (application_name ip pid timestamp : string) (self : ZkRegister)
    (children : list string) (interface : string)
    (consumer_group consumer_version : option string) : result ZkRegister :=
  let providers :=
    listed_providers parse_url children consumer_group consumer_version in
  match providers with
  | [] => Raise RegisterException
  | _ =>
    let* _ := _register_consumer application_name ip pid timestamp providers in
    Ok (mkZkRegister (<[interface := map host providers]> (hosts self))
          (weights self))
  end.

(** A provider URL parser for the examples: the child name is the host, the
    scheme is [dubbo] and the fields are those a provider must have. *)
Definition parse_url_example (child : string) : provider :=
  mkProvider "dubbo" child "/com.example.Svc"
    (<["dubbo"%string := "2.6.1"%string]>
       (<["interface"%string := "com.example.Svc"%string]>
          (<["methods"%string := "ping"%string]> ∅))).

(** A provider a consumer keeps: it was listed, its scheme is [dubbo] and
    the filter accepts it. *)
Definition kept_provider (parse_url : string -> provider)
    (children : list string) (consumer_group consumer_version : option string)
    (p : provider) : Prop :=
  (exists c, c ∈ children /\ parse_url c = p)
  /\ scheme p = "dubbo"%string
  /\ keep_provider consumer_group consumer_version p = true.

(** * Properties *)

(** ** Arithmetic on comparisons *)

Ltac zbool :=
  repeat match goal with
  | H : _ && _ = true |- _ => apply andb_prop in H; destruct H
  | H : (_ <=? _) = true |- _ => apply Z.leb_le in H
  | H : (_ <=? _) = false |- _ => apply Z.leb_gt in H
  | H : (_ <? _) = true |- _ => apply Z.ltb_lt in H
  | H : (_ <? _) = false |- _ => apply Z.ltb_ge in H
  | H : (_ >? _) = true |- _ => rewrite Z.gtb_ltb in H
  | H : (_ >? _) = false |- _ => rewrite Z.gtb_ltb in H
  | H : (_ =? _) = true |- _ => apply Z.eqb_eq in H
  | H : (_ =? _) = false |- _ => apply Z.eqb_neq in H
  end.

Ltac divmod := Z.div_mod_to_equations; lia.

(** ** Bytes *)

Lemma land_255 (x : Z) : Z.land x 0xff = x mod 256.
Proof. change 0xff with (Z.ones 8). by rewrite Z.land_ones. Qed.

Lemma shiftr_div (x n : Z) : 0 <= n -> Z.shiftr x n = x / 2 ^ n.
Proof. intros. by rewrite Z.shiftr_div_pow2. Qed.

Lemma ord_byte (c : ascii) : is_byte (ord c).
Proof.
  unfold is_byte, ord. pose proof (N_ascii_bounded c). lia.
Qed.

Lemma mask_bytes_id (l : list Z) : Forall is_byte l -> mask_bytes l = l.
Proof.
  induction 1 as [|b l Hb _ IH]; [done|]. unfold mask_bytes in *. simpl.
  rewrite IH, land_255. f_equal. unfold is_byte in Hb. by apply Z.mod_small.
Qed.

(** ** C1: strings *)

(** The string branch stops at its first statement. *)
Lemma encode_str_raises (s : string) : encode_str s = Raise AttributeError.
Proof. reflexivity. Qed.

Lemma encode_value_str (cl : list string) (s : string) :
  _encode_single_value cl (VStr s) = Raise AttributeError.
Proof. reflexivity. Qed.

(** C1. On every [str], whatever the class table, the string branch raises
    [AttributeError] at [value.decode('utf-8')]: neither a prefix nor a
    payload is emitted, where the claim expects the prefix for the number of
    code points, then the UTF-8 bytes: 03 61 62 63 for the three letters
    [abc], and 01 c3 a9 for the one code point U+00E9. *)
Theorem C1_str_raises_attribute_error (s : string) (cl : list string) :
  _encode_single_value cl (VStr s) = Raise AttributeError
  /\ _encode_single_value cl (VStr s) <> Ok (StringSpec.encode_string s, cl)
  /\ _encode_single_value [] (VStr "abc") = Raise AttributeError
  /\ StringSpec.encode_string "abc" = [0x03; 0x61; 0x62; 0x63]
  /\ StringSpec.encode_string (String "233" EmptyString) = [0x01; 0xc3; 0xa9].
Proof.
  rewrite encode_value_str. split; [done|]. split; [done|].
  split; [done|]. split; reflexivity.
Qed.

(** ** C5: integers *)

Lemma struct_pack_q_spec (v : Z) :
  - 2 ^ 63 <= v < 2 ^ 63 ->
  exists l, struct_pack_q v = Ok l /\ is_int64_be l v.
Proof.
  intros Hv. unfold struct_pack_q.
  destruct (Z.leb_spec (- 2 ^ 63) v); [|lia].
  destruct (Z.ltb_spec v (2 ^ 63)); [|lia]. cbn [andb].
  eexists; split; [reflexivity|]. unfold is_int64_be.
  split; [reflexivity|]. split.
  - repeat constructor; unfold is_byte; divmod.
  - unfold be_value, signed64. cbn [fold_left].
    destruct (Z.ltb_spec
      ((((((((0 * 256 + v mod 2 ^ 64 / 2 ^ 56) * 256
              + v mod 2 ^ 64 / 2 ^ 48 mod 256) * 256
             + v mod 2 ^ 64 / 2 ^ 40 mod 256) * 256
            + v mod 2 ^ 64 / 2 ^ 32 mod 256) * 256
           + v mod 2 ^ 64 / 2 ^ 24 mod 256) * 256
          + v mod 2 ^ 64 / 2 ^ 16 mod 256) * 256
         + v mod 2 ^ 64 / 2 ^ 8 mod 256) * 256 + v mod 2 ^ 64 mod 256)
      (2 ^ 63)); divmod.
Qed.

(** Counterexample to C5 as stated: the integer 2^63 is outside the signed
    32-bit range, and [struct.pack('>q', ...)] refuses it. *)
Lemma C5_counterexample :
  _encode_single_value [] (VInt (2 ^ 63)) = Raise StructError
  /\ ~ C5_claim_at (2 ^ 63).
Proof.
  split; [reflexivity|]. intros [_ H].
  destruct H as (_ & l & Hl & _); [right; by vm_compute|].
  vm_compute in Hl. discriminate.
Qed.

(** C5, amended. For every integer [v]: if [-16 <= v <= 47] its encoding is
    the single byte [v + 0x90]; if [v] is outside the signed 32-bit range its
    parameter-type descriptor is ['J'], and if moreover [v] is inside the
    signed 64-bit range its encoding is ['L'] followed by the big-endian
    signed 64-bit representation of [v].  In both cases the final masking
    leaves the bytes as they are. *)
Theorem C5_int_encoding (v : Z) (cl : list string) :
  (-16 <= v <= 47 ->
   _encode_single_value cl (VInt v) = Ok ([v + 0x90], cl)
   /\ mask_bytes [v + 0x90] = [v + 0x90])
  /\ (v < MIN_INT_32 \/ MAX_INT_32 < v ->
      _get_parameter_types [VInt v] = Ok "J"%string
      /\ (- 2 ^ 63 <= v < 2 ^ 63 ->
          exists l,
            _encode_single_value cl (VInt v) = Ok (ord "L" :: l, cl)
            /\ is_int64_be l v
            /\ mask_bytes (ord "L" :: l) = ord "L" :: l)).
Proof.
  unfold MIN_INT_32, MAX_INT_32. split.
  - intros Hv. cbn [_encode_single_value]. unfold encode_int.
    unfold MIN_INT_32, MAX_INT_32, INT_DIRECT_MIN, INT_DIRECT_MAX, BC_INT_ZERO.
    destruct (Z.gtb_spec v 2147483647); [lia|].
    destruct (Z.ltb_spec v (-2147483648)); [lia|].
    destruct (Z.leb_spec (-16) v); [|lia].
    destruct (Z.leb_spec v 47); [|lia]. cbn [orb andb bind].
    split; [done|]. apply mask_bytes_id.
    constructor; [unfold is_byte; lia|constructor].
  - intros Hv. split.
    + cbn [_get_parameter_types]. unfold MIN_INT_32, MAX_INT_32.
      destruct (Z.leb_spec (-2147483648) v), (Z.leb_spec v 2147483647);
        try lia; reflexivity.
    + intros H64. destruct (struct_pack_q_spec v H64) as (l & Hl & Hbe).
      exists l. cbn [_encode_single_value]. unfold encode_int.
      unfold MIN_INT_32, MAX_INT_32.
      replace ((v >? 2147483647) || (v <? -2147483648)) with true.
      2:{ destruct (Z.gtb_spec v 2147483647), (Z.ltb_spec v (-2147483648));
            try lia; reflexivity. }
      rewrite Hl. cbn [bind]. repeat split; [apply Hbe..|].
      apply mask_bytes_id. constructor; [apply ord_byte|apply Hbe].
Qed.

(** The integers 42 and 2^35 of the scenarios of section 8. *)
Lemma C5_int_encoding_witness :
  (_encode_single_value [] (VInt 42) = Ok ([0xba], [])
   /\ mask_bytes [0xba] = [0xba])
  /\ _get_parameter_types [VInt (2 ^ 35)] = Ok "J"%string
  /\ exists l,
      _encode_single_value [] (VInt (2 ^ 35)) = Ok (ord "L" :: l, [])
      /\ is_int64_be l (2 ^ 35)
      /\ mask_bytes (ord "L" :: l) = ord "L" :: l.
Proof.
  split; [apply (proj1 (C5_int_encoding 42 [])); lia|].
  assert (H : 2 ^ 35 < MIN_INT_32 \/ MAX_INT_32 < 2 ^ 35)
    by (right; reflexivity).
  destruct (proj2 (C5_int_encoding (2 ^ 35) []) H) as [HJ HL].
  split; [exact HJ|]. apply HL. lia.
Defined.

(** ** C3: the provider filter *)

(** What the lambda computes: the version clause is consulted only when the
    group matches through [default.group] alone. *)
Lemma keep_provider_direct_group (cg cv : option string) (p : provider) :
  is_none cg
  || opt_str_eqb (Some "*"%string) cg
  || opt_str_eqb (fields p !! "group"%string) cg
  || is_contain cg (fields p !! "group"%string) = true ->
  keep_provider cg cv p = true.
Proof. unfold keep_provider. by intros ->. Qed.

(** C3. The filter does not compute [groupMatches AND versionMatches]: a
    consumer of version [1.0.0] and of no group, or of group [g1], keeps the
    provider of version [2.0.0], which the rule of the claim drops. *)
Theorem C3_filter_ignores_version :
  _filter_with_group_version [provider_g1_v2] None (Some "1.0.0"%string)
  = [provider_g1_v2]
  /\ FilterSpec.filter_spec [provider_g1_v2] None (Some "1.0.0"%string) = []
  /\ _filter_with_group_version [provider_g1_v2] (Some "g1"%string)
       (Some "1.0.0"%string) = [provider_g1_v2]
  /\ FilterSpec.filter_spec [provider_g1_v2] (Some "g1"%string)
       (Some "1.0.0"%string) = [].
Proof. repeat split; by vm_compute. Qed.

(** ** C4 and C10: weighted routing *)

Lemma sum_list_app (l1 l2 : list Z) :
  sum_list (l1 ++ l2) = sum_list l1 + sum_list l2.
Proof.
  unfold sum_list. induction l1 as [|x l1 IH]; simpl; [done|]. rewrite IH. lia.
Qed.

Lemma routing_loop_pick_suffix (hit : Z) (suf : list string) :
  forall (wsuf : list Z) (pre : list string) (wpre : list Z),
    length pre = length wpre ->
    length suf = length wsuf ->
    routing_loop (pre ++ suf) (wpre ++ wsuf) hit
      (seq (length pre) (length suf))
    = match RouterSpec.pick suf wsuf (hit - 1) (sum_list wpre) with
      | Some h => Ok h
      | None => Raise RegisterException
      end.
Proof.
  induction suf as [|h suf IH]; intros wsuf pre wpre Hpre Hsuf.
  - by destruct wsuf.
  - destruct wsuf as [|w wsuf]; [done|]. simpl in Hsuf.
    cbn [length seq routing_loop RouterSpec.pick].
    replace (take (length pre + 1) (wpre ++ w :: wsuf)) with (wpre ++ [w]).
    2:{ rewrite (cons_middle w wpre wsuf), app_assoc.
        rewrite take_app_length'; [done|]. rewrite length_app. simpl. lia. }
    rewrite sum_list_app. change (sum_list [w]) with (w + 0).
    destruct (Z.leb_spec hit (sum_list wpre + (w + 0))),
      (Z.ltb_spec (hit - 1) (sum_list wpre + w)); try lia.
    + by rewrite list_lookup_middle.
    + specialize (IH wsuf (pre ++ [h]) (wpre ++ [w])).
      rewrite !length_app, <- !app_assoc, sum_list_app in IH.
      cbn [app length] in IH. change (sum_list [w]) with (w + 0) in IH.
      replace (length pre + 1)%nat with (S (length pre)) in IH by lia.
      rewrite Z.add_0_r in IH. apply IH; lia.
Qed.

(** What the loop computes: the pick of section 4.6 for the draw [hit - 1]. *)
Lemma routing_loop_pick (hs : list string) (hw : list Z) (hit : Z) :
  length hs = length hw ->
  routing_loop hs hw hit (seq 0 (length hs))
  = match RouterSpec.pick hs hw (hit - 1) 0 with
    | Some h => Ok h
    | None => Raise RegisterException
    end.
Proof. intros H. by apply (routing_loop_pick_suffix hit hs hw [] []). Qed.

(** C4. The loop compares with [<=] where the claim has [<]: on hosts A and B
    of weights 25 and 75, the draw 25, which lies in [0, 99], returns A; the
    smallest [i] with [hit < w_0 + ... + w_i] is 1, host B. *)
Theorem C4_routing_off_by_one :
  0 <= 25 <= sum_list (hosts_weight_of
                         (<["A"%string := 25]> (<["B"%string := 75]> ∅))
                         ["A"%string; "B"%string]) - 1
  /\ _routing_with_wight zk_25_75 "I" 25 = Ok "A"%string
  /\ RouterSpec.pick ["A"%string; "B"%string] [25; 75] 25 0 = Some "B"%string.
Proof. repeat split; by vm_compute. Qed.

Lemma hosts_weight_of_length (ws : gmap string Z) (hs : list string) :
  length (hosts_weight_of ws hs) = length hs.
Proof. apply length_map. Qed.

Section RoutingLoop.
Variables (hs : list string) (hw : list Z) (hit : Z).
Hypothesis Hlen : length hw = length hs.
Hypothesis Hhit : hit <= sum_list hw.

(** From index [k] on, the loop returns before it runs out of indices, as
    long as the draw is at most the sum of all the weights. *)
Lemma routing_loop_returns (n k : nat) :
  (0 < n)%nat -> (k + n)%nat = length hs ->
  exists h, routing_loop hs hw hit (seq k n) = Ok h /\ h ∈ hs.
Proof.
  revert k. induction n as [|n IH]; intros k Hn Hk; [lia|].
  cbn [seq routing_loop].
  destruct (Z.leb_spec hit (sum_list (take (k + 1) hw))) as [Hle|Hgt].
  - destruct (hs !! k) as [h|] eqn:Hh.
    + exists h. split; [done|]. by eapply list_elem_of_lookup_2.
    + apply lookup_ge_None in Hh. lia.
  - destruct n as [|n'].
    + rewrite take_ge in Hgt by lia. lia.
    + apply IH; lia.
Qed.
End RoutingLoop.

(** C10. For every non-empty host list and weight table whose weights
    (default 100) have a positive sum, and every draw [hit] in
    [0, sum - 1], the loop of the weighted router returns one of the hosts:
    the [RegisterException] after the loop is not reached.  So does
    [_routing_with_wight] on every registry that holds the list and a
    non-empty table for the interface. *)
Theorem C10_weighted_routing_returns_host (hs : list string)
    (ws : gmap string Z) (hit : Z) :
  hs <> [] ->
  0 < sum_list (hosts_weight_of ws hs) ->
  0 <= hit <= sum_list (hosts_weight_of ws hs) - 1 ->
  exists h,
    h ∈ hs
    /\ routing_loop hs (hosts_weight_of ws hs) hit (seq 0 (length hs)) = Ok h
    /\ forall (zk : ZkRegister) (interface : string),
         hosts zk !! interface = Some hs ->
         weights zk !! interface = Some ws ->
         ws <> ∅ ->
         _routing_with_wight zk interface hit = Ok h.
Proof.
  intros Hhs Hpos Hhit.
  destruct (routing_loop_returns hs (hosts_weight_of ws hs) hit)
    with (n := length hs) (k := 0%nat) as (h & Hloop & Hin).
  - apply hosts_weight_of_length.
  - lia.
  - destruct hs; [done|simpl; lia].
  - done.
  - exists h. split; [done|]. split; [done|].
    intros zk interface Hh Hw Hne. unfold _routing_with_wight.
    rewrite Hh, Hw. rewrite !bool_decide_eq_false_2 by done.
    unfold randint.
    destruct (Z.ltb_spec (sum_list (hosts_weight_of ws hs) - 1) 0); [lia|].
    done.
Qed.

(** Hosts A and B of weights 25 and 75, and the last draw, 99. *)
Lemma C10_weighted_routing_returns_host_witness :
  exists h,
    h ∈ ["A"%string; "B"%string]
    /\ routing_loop ["A"%string; "B"%string]
         (hosts_weight_of (<["A"%string := 25]> (<["B"%string := 75]> ∅))
            ["A"%string; "B"%string]) 99 (seq 0 2) = Ok h
    /\ forall (zk : ZkRegister) (interface : string),
         hosts zk !! interface = Some ["A"%string; "B"%string] ->
         weights zk !! interface
         = Some (<["A"%string := 25]> (<["B"%string := 75]> ∅)) ->
         (<["A"%string := 25]> (<["B"%string := 75]> ∅) : gmap string Z) <> ∅ ->
         _routing_with_wight zk interface 99 = Ok h.
Proof.
  apply (C10_weighted_routing_returns_host ["A"%string; "B"%string]
           (<["A"%string := 25]> (<["B"%string := 75]> ∅)) 99).
  - discriminate.
  - vm_compute. reflexivity.
  - vm_compute. split; discriminate.
Defined.

(** ** C2: a call without a version *)

(** [call] leaves the key ['version'] out of the request map when the client
    has no version, and [_encode_request_body] reads it: the call raises
    [KeyError] before a byte is encoded. *)
Lemma call_without_version (self : DubboClient) (method : string)
    (args : list Value) :
  truthy (client_version self) = false ->
  request_param self method args !! "version"%string = None
  /\ call_body self method args = Raise KeyError
  /\ call_frame self method args = Raise KeyError.
Proof.
  intros Hv.
  assert (Hnone : request_param self method args !! "version"%string = None).
  { unfold request_param. rewrite Hv.
    destruct (truthy (client_group self)); by simplify_map_eq. }
  assert (Hbody : _encode_request_body
                    (Request_init (request_param self method args))
                  = Raise KeyError).
  { unfold _encode_request_body, Request_init, getitem. cbn [body].
    rewrite Hnone.
    destruct (request_param self method args !! "dubbo_version"%string);
      [|done].
    destruct (request_param self method args !! "path"%string); done. }
  split; [done|]. unfold call_body, call_frame, encode. by rewrite Hbody.
Qed.

(** C2. For the client of scenario 1, [call("ping")] builds a request map
    without the key ['version'] and the encoder raises [KeyError]: no body
    is produced, where the claim expects one with an empty version string. *)
Theorem C2_call_without_version_raises :
  DubboClient_init "com.example.Svc" None "2.6.1" None None
    (Some "127.0.0.1:20880"%string) = Ok client_scenario_1
  /\ request_param client_scenario_1 "ping" [] !! "version"%string = None
  /\ call_body client_scenario_1 "ping" [] = Raise KeyError.
Proof.
  split; [reflexivity|].
  destruct (call_without_version client_scenario_1 "ping" [] eq_refl)
    as (H1 & H2 & _).
  by split.
Qed.

(** ** Reasoning about values *)

(** Induction over values, with the hypothesis on every field value of an
    object. *)
Lemma Value_ind_fields (P : Value -> Prop) :
  (forall b, P (VBool b)) ->
  (forall z, P (VInt z)) ->
  (forall f, P (VFloat f)) ->
  (forall s, P (VStr s)) ->
  (forall path fields,
      Forall (fun kv => P (snd kv)) fields -> P (VObject path fields)) ->
  (forall r, P (VOther r)) ->
  forall v, P v.
Proof.
  intros Hb Hi Hf Hs Ho Hx.
  fix IH 1.
  intros [b|z|f|s|path fields|r];
    [apply Hb|apply Hi|apply Hf|apply Hs| |apply Hx].
  apply Ho. induction fields as [|[k v] fields IHf]; constructor.
  - apply IH.
  - apply IHf.
Qed.

(** The object branch, with its loop over the field values made a call of
    [encode_fields]. *)
Lemma encode_object_unfold (cl : list string) (path : string)
    (fields : list (string * Value)) :
  _encode_single_value cl (VObject path fields)
  = let* (def, classes1) := encode_class_def cl path (map fst fields) in
    let* ref := encode_class_ref classes1 path in
    let* (vals, classes2) := encode_fields fields classes1 in
    Ok (def ++ ref ++ vals, classes2).
Proof. reflexivity. Qed.

Lemma object_getitem_middle (pre suf : list (string * Value)) (k : string)
    (v : Value) :
  k ∉ map fst pre -> object_getitem (pre ++ (k, v) :: suf) k = Ok v.
Proof.
  induction pre as [|[k' v'] pre IH]; intros Hk.
  - simpl. by rewrite String.eqb_refl.
  - cbn [app object_getitem]. cbn [map fst] in Hk.
    apply not_elem_of_cons in Hk as [Hne Hk].
    destruct (String.eqb_spec k' k) as [->|_]; [done|]. by apply IH.
Qed.

Lemma encode_fields_by_key_suffix (suf : list (string * Value)) :
  forall (pre : list (string * Value)) (cl : list string),
    NoDup (map fst (pre ++ suf)) ->
    encode_fields_by_key (pre ++ suf) (map fst suf) cl = encode_fields suf cl.
Proof.
  induction suf as [|[k v] suf IH]; intros pre cl Hnd; [done|].
  cbn [map fst encode_fields_by_key encode_fields].
  rewrite object_getitem_middle.
  2:{ rewrite map_app in Hnd. apply NoDup_app in Hnd as (_ & Hdis & _).
      intros Hin. apply (Hdis k Hin). cbn [map fst]. apply list_elem_of_here. }
  cbn [bind]. destruct (_encode_single_value cl v) as [[r cl1]|e]; [|done].
  cbn [bind]. specialize (IH (pre ++ [(k, v)]) cl1).
  rewrite <- app_assoc in IH. cbn [app] in IH. by rewrite IH.
Qed.

(** On a dictionary (no key twice), reading each value by its key is
    reading the entries in order. *)
Lemma encode_fields_by_key_eq (fields : list (string * Value))
    (cl : list string) :
  NoDup (map fst fields) ->
  encode_fields_by_key fields (map fst fields) cl = encode_fields fields cl.
Proof. apply (encode_fields_by_key_suffix fields []). Qed.

Lemma supported_object (path : string) (fields : list (string * Value)) :
  supported (VObject path fields) = supported_fields fields.
Proof.
  cbn [supported]. induction fields as [|[k v] fields IH]; [done|].
  unfold supported_fields in *. cbn [forallb map snd]. by rewrite IH.
Qed.

(** ** What the scalar branches raise *)

Lemma struct_pack_q_raises (z : Z) (e : exn) :
  struct_pack_q z = Raise e -> e = StructError.
Proof. unfold struct_pack_q. destruct (_ && _); congruence. Qed.

Lemma encode_int_raises (z : Z) (e : exn) :
  encode_int z = Raise e -> e = StructError.
Proof.
  unfold encode_int. destruct (_ || _).
  - destruct (struct_pack_q z) eqn:Hp; cbn [bind]; [done|].
    intros [= <-]. by eapply struct_pack_q_raises.
  - repeat destruct (_ && _); done.
Qed.

Lemma int_of_float_raises (f : spec_float) (e : exn) :
  int_of_float f = Raise e -> e <> HessianTypeError.
Proof. destruct f; simpl; congruence. Qed.

Lemma float_of_int_raises (i : Z) (e : exn) :
  float_of_int i = Raise e -> e <> HessianTypeError.
Proof.
  unfold float_of_int. destruct (binary_normalize _ _ _ _ _); congruence.
Qed.

Lemma encode_float_raises (f : spec_float) (e : exn) :
  encode_float f = Raise e -> e <> HessianTypeError.
Proof.
  unfold encode_float.
  destruct (int_of_float f) as [i|e0] eqn:Hi; cbn [bind].
  2:{ intros [= <-]. by eapply int_of_float_raises. }
  destruct (if int_eq_float i f then encode_float_compact i else None);
    [done|].
  unfold encode_float_general.
  destruct (float_of_int 1000) as [t|e0] eqn:Ht; cbn [bind].
  2:{ intros [= <-]. by eapply float_of_int_raises. }
  destruct (int_of_float (SFmul _ _ _ _)) as [m|e0] eqn:Hm; cbn [bind].
  2:{ intros [= <-]. by eapply int_of_float_raises. }
  destruct (float_of_int m) as [fm|e0] eqn:Hfm; cbn [bind].
  2:{ intros [= <-]. by eapply float_of_int_raises. }
  by destruct (_ && _).
Qed.

(** ** The class table *)

Lemma str_in_elem_of (x : string) (l : list string) :
  str_in x l = true <-> x ∈ l.
Proof.
  unfold str_in. rewrite existsb_exists. split.
  - intros (y & Hy & ->%String.eqb_eq). by apply list_elem_of_In.
  - intros H. exists x. split; [by apply list_elem_of_In|apply String.eqb_refl].
Qed.

Lemma str_in_not_elem_of (x : string) (l : list string) :
  str_in x l = false <-> x ∉ l.
Proof.
  rewrite <- str_in_elem_of. by destruct (str_in x l).
Qed.

Lemma list_index_raises (x : string) (l : list string) (e : exn) :
  list_index x l = Raise e -> e = ValueError.
Proof.
  induction l as [|y l IH]; cbn [list_index]; [congruence|].
  destruct (String.eqb y x); [done|].
  destruct (list_index x l); cbn [bind]; [done|]. intros [= <-]. by apply IH.
Qed.

Lemma encode_fields_values (fs : list (string * Value)) (cl : list string) :
  encode_fields fs cl = encode_values (map snd fs) cl.
Proof.
  revert cl. induction fs as [|[k v] fs IH]; intros cl; [done|].
  cbn [encode_fields encode_values map snd].
  destruct (_encode_single_value cl v) as [[r c]|e]; [|done].
  cbn [bind]. by rewrite IH.
Qed.

(** ** C9: [HessianTypeError] *)

Lemma encode_class_def_raises (cl : list string) (path : string)
    (names : list string) (e : exn) :
  encode_class_def cl path names = Raise e -> e = AttributeError.
Proof.
  unfold encode_class_def. destruct (str_in path cl); [done|].
  rewrite encode_str_raises. cbn [bind]. congruence.
Qed.

(** An object whose class is not in the table: the class definition begins
    with the path, a [str]. *)
Lemma encode_object_new_class (cl : list string) (path : string)
    (fields : list (string * Value)) :
  str_in path cl = false ->
  _encode_single_value cl (VObject path fields) = Raise AttributeError.
Proof.
  intros Hnew. rewrite encode_object_unfold. unfold encode_class_def.
  by rewrite Hnew, encode_str_raises.
Qed.

Lemma encode_class_ref_raises (cl : list string) (path : string) (e : exn) :
  encode_class_ref cl path = Raise e -> e <> HessianTypeError.
Proof.
  unfold encode_class_ref. destruct (list_index path cl) eqn:Hi; cbn [bind].
  2:{ intros [= <-]. by rewrite (list_index_raises _ _ _ Hi). }
  destruct (_ <=? _); [done|].
  destruct (encode_int a) eqn:Hc; cbn [bind]; [done|].
  intros [= <-]. by rewrite (encode_int_raises _ _ Hc).
Qed.

Lemma encode_values_never_type_error (vs : list Value) :
  Forall never_type_error vs ->
  forallb supported vs = true ->
  forall (cl : list string) (e : exn),
    encode_values vs cl = Raise e -> e <> HessianTypeError.
Proof.
  induction 1 as [|v vs Hv _ IH]; intros Hs cl e; [done|].
  cbn [forallb] in Hs. apply andb_prop in Hs as [Hs1 Hs2].
  cbn [encode_values].
  destruct (_encode_single_value cl v) as [[r cl1]|e1] eqn:H1; cbn [bind].
  - destruct (encode_values vs cl1) as [[rs cl2]|e2] eqn:H2; cbn [bind];
      [done|].
    intros [= <-]. by eapply IH.
  - intros [= <-]. by eapply Hv.
Qed.

Lemma encode_never_type_error (v : Value) : never_type_error v.
Proof.
  induction v as [b|z|f|s|path fields IH|r] using Value_ind_fields;
    intros Hs cl e.
  - done.
  - cbn [_encode_single_value]. destruct (encode_int z) eqn:Hz; cbn [bind];
      [done|].
    intros [= <-]. by rewrite (encode_int_raises _ _ Hz).
  - cbn [_encode_single_value]. destruct (encode_float f) eqn:Hf; cbn [bind];
      [done|].
    intros [= <-]. by eapply encode_float_raises.
  - rewrite encode_value_str. by intros [= <-].
  - rewrite supported_object in Hs. rewrite encode_object_unfold.
    destruct (encode_class_def cl path (map fst fields)) as [[def cl1]|e1]
      eqn:Hd; cbn [bind].
    2:{ intros [= <-]. by rewrite (encode_class_def_raises _ _ _ _ Hd). }
    destruct (encode_class_ref cl1 path) as [ref|e1] eqn:Hr; cbn [bind].
    2:{ intros [= <-]. by eapply encode_class_ref_raises. }
    rewrite encode_fields_values.
    destruct (encode_values (map snd fields) cl1) as [[vals cl2]|e1] eqn:Hv;
      cbn [bind]; [done|].
    intros [= <-]. eapply encode_values_never_type_error; [|exact Hs|exact Hv].
    apply Forall_map. eapply Forall_impl; [exact IH|]. by intros [].
  - done.
Qed.

(** [_get_parameter_types] raises exactly on an argument of another type. *)
Lemma get_parameter_types_raises (arguments : list Value) :
  (forallb (fun v => match v with VOther _ => false | _ => true end)
     arguments = true
   -> exists t, _get_parameter_types arguments = Ok t)
  /\ (forallb (fun v => match v with VOther _ => false | _ => true end)
        arguments = false
      -> _get_parameter_types arguments = Raise HessianTypeError).
Proof.
  induction arguments as [|v vs [IH1 IH2]]; [split; [by eexists|done]|].
  cbn [forallb _get_parameter_types]. split.
  - intros [Hv Hvs]%andb_prop. destruct (IH1 Hvs) as [ts ->].
    destruct v; try done; cbn [bind]; eauto.
    destruct (_ && _); cbn [bind]; eauto.
  - intros Hf. destruct v; cbn [bind andb] in *; try done;
      try (rewrite (IH2 Hf); done).
    destruct (_ && _); cbn [bind]; by rewrite (IH2 Hf).
Qed.

Lemma other_in_arguments (arguments : list Value) :
  forallb (fun v => match v with VOther _ => false | _ => true end)
    arguments = false ->
  exists r, VOther r ∈ arguments.
Proof.
  induction arguments as [|v vs IH]; [done|]. cbn [forallb].
  destruct v; cbn [andb];
    try (intros [r Hr]%IH; exists r; by apply list_elem_of_further).
  intros _. eexists. apply list_elem_of_here.
Qed.

(** C9. An object with a field value of none of the six kinds, handed to
    a new [Request], raises [AttributeError], not [HessianTypeError]: the
    encoder stops at the class path, a [str], before it looks at a field.
    So does every object on the empty class table.  The rest of the claim
    holds of the code: a value of another type raises [HessianTypeError], a
    value all of whose parts are of the six kinds never does, and
    [_get_parameter_types] raises it exactly when an argument is of another
    type. *)
Theorem C9_object_field_raises_attribute_error (path : string)
    (fields : list (string * Value)) :
  supported object_none = false
  /\ _encode_single_value [] object_none = Raise AttributeError
  /\ _encode_single_value [] (VObject path fields) = Raise AttributeError
  /\ (forall (cl : list string) (r : string),
        _encode_single_value cl (VOther r) = Raise HessianTypeError)
  /\ (forall (cl : list string) (v : Value),
        supported v = false
        \/ _encode_single_value cl v <> Raise HessianTypeError)
  /\ (forall arguments : list Value,
        _get_parameter_types arguments = Raise HessianTypeError
        <-> exists r, VOther r ∈ arguments).
Proof.
  split; [reflexivity|]. split; [reflexivity|].
  split; [by apply encode_object_new_class|]. split; [done|]. split.
  - intros cl v. destruct (supported v) eqn:Hs; [right|by left].
    intros He. by eapply encode_never_type_error.
  - intros arguments.
    destruct (get_parameter_types_raises arguments) as [H1 H2].
    destruct (forallb _ arguments) eqn:Hall.
    + destruct (H1 eq_refl) as [t Ht]. rewrite Ht. split; [done|].
      intros [r Hr]. rewrite forallb_forall in Hall.
      apply list_elem_of_In in Hr. by apply Hall in Hr.
    + split; [|by auto]. intros _. by apply other_in_arguments.
Qed.

(** ** C6: objects and the class table *)

Lemma encode_values_first_object (path : string)
    (fields : list (string * Value)) (vs : list Value) (cl : list string) :
  str_in path cl = false ->
  encode_values (VObject path fields :: vs) cl = Raise AttributeError.
Proof.
  intros Hnew. cbn [encode_values].
  by rewrite (encode_object_new_class cl path fields Hnew).
Qed.

(** C6. The first occurrence of a class raises [AttributeError]: the class
    definition begins with the class path, a [str], and the string branch
    raises on it.  No definition is emitted and no class is appended, on the
    empty table of a new [Request] and on any table that lacks the class; a
    sequence of values that begins with an object, like two objects of one
    class, raises at its first item. *)
Theorem C6_first_occurrence_raises (path : string)
    (fields : list (string * Value)) :
  _encode_single_value [] (VObject path fields) = Raise AttributeError
  /\ (forall cl : list string,
        str_in path cl = true
        \/ _encode_single_value cl (VObject path fields)
           = Raise AttributeError)
  /\ (forall vs : list Value,
        encode_values (VObject path fields :: vs) [] = Raise AttributeError)
  /\ encode_values two_objects [] = Raise AttributeError.
Proof.
  split; [by apply encode_object_new_class|]. split; [|split].
  - intros cl. destruct (str_in path cl) eqn:Hin; [by left|right].
    by apply encode_object_new_class.
  - intros vs. by apply encode_values_first_object.
  - reflexivity.
Qed.

(** ** The length field of the frame *)

Lemma be_value_snoc (l : list Z) (b : Z) :
  be_value (l ++ [b]) = be_value l * 256 + b.
Proof. unfold be_value. by rewrite fold_left_app. Qed.

Lemma be_value_cons (b : Z) (l : list Z) :
  be_value (b :: l) = b * 256 ^ len l + be_value l.
Proof.
  unfold len. induction l as [|c l IH] using rev_ind.
  - unfold be_value. simpl. lia.
  - rewrite app_comm_cons, !be_value_snoc, IH, length_app.
    rewrite Nat2Z.inj_add, Z.pow_add_r by lia.
    change (Z.of_nat (length [c])) with 1. rewrite Z.pow_1_r. ring.
Qed.

Lemma num_2_byte_list_loop_value (fuel : nat) :
  forall (num : Z) (acc : list Z),
    0 <= num < 256 ^ Z.of_nat fuel ->
    be_value (num_2_byte_list_loop fuel num acc)
    = num * 256 ^ len acc + be_value acc.
Proof.
  induction fuel as [|fuel IH]; intros num acc Hnum.
  - simpl in *. assert (num = 0) as -> by lia. lia.
  - cbn [num_2_byte_list_loop]. destruct (Z.gtb_spec num 0) as [Hpos|Hz].
    + rewrite IH.
      2:{ rewrite shiftr_div by lia. rewrite Nat2Z.inj_succ, Z.pow_succ_r in Hnum
            by lia. change (2 ^ 8) with 256. divmod. }
      rewrite be_value_cons, land_255, shiftr_div by lia.
      change (2 ^ 8) with 256. unfold len. simpl length.
      rewrite Nat2Z.inj_succ, Z.pow_succ_r by lia.
      pose proof (Z.div_mod num 256 ltac:(lia)) as Hdm.
      rewrite Hdm at 3. ring.
    + assert (num = 0) as -> by lia. lia.
Qed.

Lemma num_2_byte_list_loop_length (fuel : nat) :
  forall (num : Z) (acc : list Z) (k : nat),
    0 <= num < 256 ^ Z.of_nat k ->
    (length (num_2_byte_list_loop fuel num acc) <= k + length acc)%nat.
Proof.
  induction fuel as [|fuel IH]; intros num acc k Hnum; [simpl; lia|].
  cbn [num_2_byte_list_loop]. destruct (Z.gtb_spec num 0) as [Hpos|Hz];
    [|lia].
  destruct k as [|k]; [simpl in Hnum; lia|].
  specialize (IH (Z.shiftr num 8) (Z.land num 255 :: acc) k).
  simpl length in IH. etrans; [apply IH|lia].
  rewrite shiftr_div by lia. rewrite Nat2Z.inj_succ, Z.pow_succ_r in Hnum
    by lia. change (2 ^ 8) with 256. divmod.
Qed.

Lemma num_2_byte_list_loop_bytes (fuel : nat) :
  forall (num : Z) (acc : list Z),
    Forall is_byte acc -> Forall is_byte (num_2_byte_list_loop fuel num acc).
Proof.
  induction fuel as [|fuel IH]; intros num acc Hacc; [done|].
  cbn [num_2_byte_list_loop]. destruct (num >? 0); [|done].
  apply IH. constructor; [|done]. rewrite land_255. unfold is_byte. divmod.
Qed.

Lemma pad_front_spec (k : nat) :
  forall l : list Z,
    length (pad_front k l) = (k + length l)%nat
    /\ be_value (pad_front k l) = be_value l
    /\ (Forall is_byte l -> Forall is_byte (pad_front k l)).
Proof.
  induction k as [|k IH]; intros l; [done|]. cbn [pad_front].
  destruct (IH (0 :: l)) as (Hl & Hv & Hb). split; [simpl in Hl; lia|].
  split; [rewrite Hv, be_value_cons; lia|].
  intros H. apply Hb. constructor; [unfold is_byte; lia|done].
Qed.

(** The length field denotes the length of the body, and has four bytes as
    long as the length fits in them. *)
Lemma get_request_body_length_spec (body : list Z) :
  be_value (get_request_body_length body) = len body
  /\ Forall is_byte (get_request_body_length body)
  /\ (len body < 2 ^ 32 -> length (get_request_body_length body) = 4%nat).
Proof.
  unfold get_request_body_length, num_2_byte_list.
  set (n := len body). assert (Hn : 0 <= n) by (unfold n, len; lia).
  set (l := num_2_byte_list_loop _ n []).
  destruct (pad_front_spec (4 - length l) l) as (Hlen & Hval & Hbytes).
  split; [|split].
  - rewrite Hval. unfold l. rewrite num_2_byte_list_loop_value.
    + unfold be_value, len. simpl. lia.
    + split; [done|]. destruct (Z.eq_dec n 0) as [->|Hne]; [done|].
      rewrite Nat2Z.inj_succ, Z2Nat.id by apply Z.log2_nonneg.
      pose proof (Z.log2_spec n ltac:(lia)) as [_ Hlt].
      eapply Z.lt_le_trans; [exact Hlt|].
      change 256 with (2 ^ 8). rewrite <- Z.pow_mul_r by (pose proof (Z.log2_nonneg n); lia).
      apply Z.pow_le_mono_r; [lia|]. pose proof (Z.log2_nonneg n). lia.
  - apply Hbytes. by apply num_2_byte_list_loop_bytes.
  - intros H32. rewrite Hlen.
    pose proof (num_2_byte_list_loop_length (S (Z.to_nat (Z.log2 n))) n [] 4)
      as Hle.
    fold l in Hle. simpl length in Hle.
    specialize (Hle ltac:(change (256 ^ Z.of_nat 4) with (2 ^ 32); lia)).
    lia.
Qed.

(** ** C7: the frame *)

Ltac bind_raises :=
  repeat match goal with
  | |- exists e, bind (_encode_single_value _ (VStr _)) _ = Raise e =>
    rewrite encode_value_str; cbn [bind]; by eexists
  | |- exists e, bind ?m _ = Raise e =>
    first [destruct m as [[? ?]|?]|destruct m as [?|?]];
    cbn [bind]; [|by eexists]
  end.

(** Whatever the request map holds, the body is not built: once the five
    entries are read and the first four are encoded, the parameter-type
    descriptor, a [str], is handed to the string branch. *)
Lemma encode_request_body_raises (self : Request) :
  exists e, _encode_request_body self = Raise e.
Proof. unfold _encode_request_body. bind_raises. Qed.

(** A request map that holds a [str] under ['dubbo_version'] and has the
    other four keys: the first value encoded is that [str]. *)
Lemma encode_request_body_str (self : Request) (s : string) :
  body self !! "dubbo_version"%string = Some (EValue (VStr s)) ->
  is_Some (body self !! "path"%string) ->
  is_Some (body self !! "version"%string) ->
  is_Some (body self !! "method"%string) ->
  is_Some (body self !! "arguments"%string) ->
  _encode_request_body self = Raise AttributeError.
Proof.
  intros Hd [p Hp] [v Hv] [m Hm] [a Ha].
  unfold _encode_request_body, getitem. by rewrite Hd, Hp, Hv, Hm, Ha.
Qed.

(** C7. [encode()] returns no frame: for every request map and every class
    table it raises, and for a request map as a call builds it, with the
    four strings and the argument list, it raises [AttributeError] at
    ['dubbo_version'], the first value handed to the string branch.  The
    claim expects the header, the length field and the body. *)
Theorem C7_encode_never_returns (self : Request) :
  (exists e, encode self = Raise e)
  /\ (exists e, _encode_request_body self = Raise e)
  /\ _encode_request_body (Request_init request_m_42) = Raise AttributeError
  /\ encode (Request_init request_m_42) = Raise AttributeError.
Proof.
  destruct (encode_request_body_raises self) as [e He].
  split; [|split; [|split]].
  - exists e. unfold encode. by rewrite He.
  - by exists e.
  - reflexivity.
  - reflexivity.
Qed.

(** ** C8: two instances *)







(** * The rest of the code *)

(** ** Integers: the compact forms and their reading *)

(** X1. The wire bytes of an integer of the signed 32-bit range that has no
    one-byte form: two bytes [0xc8 + (v >> 8)], [v & 0xff] from -2048 to
    2047; three bytes [0xd4 + (v >> 16)], [(v >> 8) & 0xff], [v & 0xff] from
    -262144 to 262143; else ['I'] and the four bytes of [v], most significant
    first, in two's complement. *)
Theorem X1_int32_forms (v : Z) (cl : list string) :
  MIN_INT_32 <= v <= MAX_INT_32 ->
  ~ (-16 <= v <= 47) ->
  exists raw,
    _encode_single_value cl (VInt v) = Ok (raw, cl)
    /\ (-2048 <= v <= 2047 ->
        mask_bytes raw = [0xc8 + v / 256; v mod 256])
    /\ (~ (-2048 <= v <= 2047) -> -262144 <= v <= 262143 ->
        mask_bytes raw = [0xd4 + v / 65536; (v / 256) mod 256; v mod 256])
    /\ (~ (-262144 <= v <= 262143) ->
        mask_bytes raw
        = [ord "I"; (v / 2 ^ 24) mod 256; (v / 2 ^ 16) mod 256;
           (v / 2 ^ 8) mod 256; v mod 256]).
Proof.
  unfold MIN_INT_32, MAX_INT_32. intros Hv Hnd.
  cbn [_encode_single_value]. unfold encode_int.
  unfold MIN_INT_32, MAX_INT_32, INT_DIRECT_MIN, INT_DIRECT_MAX,
    INT_BYTE_MIN, INT_BYTE_MAX, INT_SHORT_MIN, INT_SHORT_MAX,
    BC_INT_BYTE_ZERO, BC_INT_SHORT_ZERO.
  destruct (Z.gtb_spec v 2147483647); [lia|].
  destruct (Z.ltb_spec v (-2147483648)); [lia|]. cbn [orb].
  replace ((-16 <=? v) && (v <=? 47)) with false.
  2:{ symmetry. apply andb_false_iff.
      destruct (Z.leb_spec (-16) v), (Z.leb_spec v 47); auto. lia. }
  destruct (Z.leb_spec (-2048) v), (Z.leb_spec v 2047); cbn [andb];
    try (eexists; split; [reflexivity|]; split; [|split]; intros; try lia;
         cbn [mask_bytes map]; rewrite !land_255, ?shiftr_div by lia;
         change (2 ^ 8) with 256; f_equal; [divmod|f_equal; divmod]).
  all: destruct (Z.leb_spec (-262144) v), (Z.leb_spec v 262143); cbn [andb];
    eexists; (split; [reflexivity|]); (split; [|split]); intros; try lia;
    cbn [mask_bytes map]; rewrite !land_255, ?shiftr_div by lia;
    change (2 ^ 8) with 256; change (2 ^ 16) with 65536;
    repeat (f_equal; try divmod).
Qed.

Lemma X1_int32_forms_witness :
  exists raw,
    _encode_single_value [] (VInt (-300)) = Ok (raw, [])
    /\ mask_bytes raw = [0xc6; 0xd4].
Proof.
  destruct (X1_int32_forms (-300) []) as (raw & He & Hb & _).
  - vm_compute. split; discriminate.
  - lia.
  - exists raw. split; [exact He|]. rewrite Hb by lia. reflexivity.
Defined.

Lemma int64_be_destruct (l : list Z) (v : Z) :
  is_int64_be l v ->
  exists b1 b2 b3 b4 b5 b6 b7 b8,
    l = [b1; b2; b3; b4; b5; b6; b7; b8].
Proof.
  intros (Hlen & _).
  do 8 (destruct l as [|? l]; [discriminate Hlen|]).
  destruct l; [|discriminate Hlen]. by repeat eexists.
Qed.

Ltac int_cmp :=
  repeat match goal with
  | |- context [?a >? ?b] => destruct (Z.gtb_spec a b); try lia
  | |- context [?a <? ?b] => destruct (Z.ltb_spec a b); try lia
  | |- context [?a <=? ?b] => destruct (Z.leb_spec a b); try lia
  | |- context [?a =? ?b] => destruct (Z.eqb_spec a b); try lia
  end.

(** X2. Every integer of the signed 64-bit range is encoded, and the bytes
    on the wire read back as the integer: the five forms are told apart by
    their first byte, and no two integers have the same encoding. *)
Theorem X2_int_round_trip (v : Z) (cl : list string) :
  - 2 ^ 63 <= v < 2 ^ 63 ->
  exists raw,
    _encode_single_value cl (VInt v) = Ok (raw, cl)
    /\ decode_int (mask_bytes raw) = Some v.
Proof.
  intros Hv. cbn [_encode_single_value]. unfold encode_int.
  unfold MIN_INT_32, MAX_INT_32, INT_DIRECT_MIN, INT_DIRECT_MAX,
    INT_BYTE_MIN, INT_BYTE_MAX, INT_SHORT_MIN, INT_SHORT_MAX,
    BC_INT_ZERO, BC_INT_BYTE_ZERO, BC_INT_SHORT_ZERO.
  destruct ((v >? 2147483647) || (v <? -2147483648)) eqn:Hout.
  { destruct (struct_pack_q_spec v Hv) as (l & -> & Hbe). cbn [bind].
    exists (ord "L" :: l). split; [done|].
    rewrite mask_bytes_id by (constructor; [apply ord_byte|apply Hbe]).
    destruct (int64_be_destruct l v Hbe)
      as (b1 & b2 & b3 & b4 & b5 & b6 & b7 & b8 & ->).
    cbn [decode_int]. rewrite Z.eqb_refl. f_equal. apply Hbe. }
  apply orb_false_elim in Hout as [H1 H2]. zbool.
  destruct ((-16 <=? v) && (v <=? 47)) eqn:Hd.
  { zbool. eexists; split; [reflexivity|]. cbn [mask_bytes map decode_int].
    rewrite land_255, Z.mod_small by lia. unfold BC_INT_ZERO.
    int_cmp. cbn [andb]. f_equal. lia. }
  destruct ((-2048 <=? v) && (v <=? 2047)) eqn:Hb.
  { zbool. eexists; split; [reflexivity|]. cbn [mask_bytes map decode_int].
    rewrite !land_255, shiftr_div by lia. change (2 ^ 8) with 256.
    unfold BC_INT_BYTE_ZERO.
    destruct (Z.leb_spec 192 ((200 + v / 256) mod 256)); [|exfalso; divmod].
    destruct (Z.leb_spec ((200 + v / 256) mod 256) 207); [|exfalso; divmod].
    cbn [andb]. f_equal. divmod. }
  destruct ((-262144 <=? v) && (v <=? 262143)) eqn:Hs.
  { zbool. eexists; split; [reflexivity|]. cbn [mask_bytes map decode_int].
    rewrite !land_255, !shiftr_div by lia.
    change (2 ^ 8) with 256. change (2 ^ 16) with 65536.
    unfold BC_INT_SHORT_ZERO.
    destruct (Z.leb_spec 208 ((212 + v / 65536) mod 256));
      [|exfalso; divmod].
    destruct (Z.leb_spec ((212 + v / 65536) mod 256) 215);
      [|exfalso; divmod].
    cbn [andb]. f_equal. divmod. }
  eexists; split; [reflexivity|]. cbn [mask_bytes map decode_int].
  rewrite !land_255, !shiftr_div by lia.
  change (ord "I" mod 256 =? ord "I") with true. cbv iota. f_equal.
  unfold signed32, be_value. cbn [fold_left].
  change (2 ^ 8) with 256. change (2 ^ 16) with 65536.
  change (2 ^ 24) with 16777216.
  match goal with |- (if ?a <? ?b then _ else _) = _ =>
    destruct (Z.ltb_spec a b) end; divmod.
Qed.

Lemma X2_int_round_trip_witness :
  exists raw,
    _encode_single_value [] (VInt (-70000)) = Ok (raw, [])
    /\ decode_int (mask_bytes raw) = Some (-70000).
Proof. apply (X2_int_round_trip (-70000) []). lia. Defined.

(** ** Doubles *)

(** X3. The float branch cannot encode an infinity or a NaN: [int(value)]
    raises [OverflowError] on the first and [ValueError] on the second; and
    whatever the double, the branch raises no other kind of error. *)
Theorem X3_float_errors (f : spec_float) (cl : list string) :
  (forall s, _encode_single_value cl (VFloat (S754_infinity s))
             = Raise OverflowError)
  /\ _encode_single_value cl (VFloat S754_nan) = Raise ValueError
  /\ (forall e, _encode_single_value cl (VFloat f) = Raise e ->
                e = OverflowError \/ e = ValueError).
Proof.
  split; [done|]. split; [done|]. intros e. cbn [_encode_single_value].
  destruct (encode_float f) as [r|e0] eqn:He; cbn [bind]; [done|].
  intros [= <-]. revert He. unfold encode_float.
  destruct (int_of_float f) as [i|e1] eqn:Hi; cbn [bind].
  2:{ intros [= <-]. destruct f; simpl in Hi; inversion Hi; auto. }
  destruct (if int_eq_float i f then encode_float_compact i else None);
    [done|].
  unfold encode_float_general.
  destruct (float_of_int 1000) as [t|e1] eqn:Ht; cbn [bind];
    [|vm_compute in Ht; discriminate].
  destruct (int_of_float (SFmul _ _ _ _)) as [m|e1] eqn:Hm; cbn [bind].
  2:{ intros [= <-]. destruct (SFmul prec emax f t); simpl in Hm;
        inversion Hm; auto. }
  destruct (float_of_int m) as [fm|e1] eqn:Hfm; cbn [bind].
  2:{ intros [= <-]. unfold float_of_int in Hfm.
      destruct (binary_normalize _ _ _ _ _); inversion Hfm; auto. }
  by destruct (_ && _).
Qed.

Lemma encode_float_general_sound (f : spec_float) (r : list Z) :
  encode_float_general f = Ok r -> float_wire_reads (mask_bytes r) f.
Proof.
  unfold encode_float_general.
  destruct (float_of_int 1000) as [t|e1] eqn:Ht; cbn [bind]; [|done].
  destruct (int_of_float (SFmul _ _ _ _)) as [m|e1] eqn:Hm; cbn [bind];
    [|done].
  destruct (float_of_int m) as [fm|e1] eqn:Hfm; cbn [bind]; [|done].
  destruct (SFeqb _ f && (MIN_INT_32 <=? m) && (m <=? MAX_INT_32)) eqn:Hc.
  - intros [= <-]. apply andb_prop in Hc as [Hc Hhi].
    apply andb_prop in Hc as [Heq Hlo]. unfold MIN_INT_32, MAX_INT_32 in *.
    zbool. cbn [mask_bytes map float_wire_reads]. split; [done|].
    exists fm. split; [|done]. rewrite <- Hfm. f_equal.
    rewrite !land_255, !shiftr_div by lia.
    unfold signed32, be_value. cbn [fold_left].
    change (2 ^ 8) with 256. change (2 ^ 16) with 65536.
    change (2 ^ 24) with 16777216.
    match goal with |- (if ?a <? ?b then _ else _) = _ =>
      destruct (Z.ltb_spec a b) end; divmod.
  - intros [= <-]. cbn [mask_bytes map float_wire_reads].
    split; [done|]. rewrite !land_255, !shiftr_div by lia.
    unfold be_value. cbn [fold_left].
    generalize (double_to_long_bits f). intros bits. divmod.
Qed.

(** X4. When the float branch returns, the bytes on the wire are one of its
    six forms, and each form says the truth about the double: a compact form
    carries an integer the double equals, the mill form an integer whose
    product by [0.001] equals the double, and the ['D'] form the 64-bit
    pattern [double_to_long_bits] gives. *)
Theorem X4_float_wire_sound (f : spec_float) (cl : list string)
    (raw : list Z) (cl' : list string) :
  _encode_single_value cl (VFloat f) = Ok (raw, cl') ->
  cl' = cl /\ float_wire_reads (mask_bytes raw) f.
Proof.
  cbn [_encode_single_value].
  destruct (encode_float f) as [r|e0] eqn:He; cbn [bind]; [|done].
  intros [= <- <-]. split; [done|]. revert He. unfold encode_float.
  destruct (int_of_float f) as [i|e1] eqn:Hi; cbn [bind]; [|done].
  destruct (int_eq_float i f) eqn:Heq.
  - unfold encode_float_compact.
    unfold BC_DOUBLE_ZERO, BC_DOUBLE_ONE, BC_DOUBLE_BYTE, BC_DOUBLE_SHORT.
    destruct (Z.eqb_spec i 0) as [->|H0].
    { intros [= <-]. left. done. }
    destruct (Z.eqb_spec i 1) as [->|H1].
    { intros [= <-]. right. done. }
    destruct ((- 128 <=? i) && (i <? 128)) eqn:Hb.
    { intros [= <-]. zbool. cbn [mask_bytes map float_wire_reads].
      split; [done|]. rewrite land_255. unfold signed8.
      replace (if i mod 256 <? 2 ^ 7 then i mod 256 else i mod 256 - 2 ^ 8)
        with i; [done|].
      destruct (Z.ltb_spec (i mod 256) (2 ^ 7)); divmod. }
    destruct ((- 32768 <=? i) && (i <? 32768)) eqn:Hs.
    { intros [= <-]. zbool. cbn [mask_bytes map float_wire_reads].
      split; [done|]. rewrite !land_255, shiftr_div by lia.
      unfold signed16, be_value. cbn [fold_left]. change (2 ^ 8) with 256.
      replace (if _ <? 2 ^ 15 then _ else _) with i; [done|].
      match goal with |- _ = (if ?a <? ?b then _ else _) =>
        destruct (Z.ltb_spec a b) end; divmod. }
    apply encode_float_general_sound.
  - apply encode_float_general_sound.
Qed.

Lemma X4_float_wire_sound_witness :
  float_wire_reads [0x5d; 0xfe] (S754_finite true 4503599627370496 (-51)).
Proof.
  apply (X4_float_wire_sound (S754_finite true 4503599627370496 (-51)) []
           [0x5d; -2] []).
  reflexivity.
Defined.

(** ** The class table, whatever the value *)

Lemma passes_object (cl : list string) (path : string)
    (fields : list (string * Value)) :
  passes cl (VObject path fields)
  = str_in path cl && passes_fields cl fields.
Proof.
  cbn [passes]. f_equal.
  induction fields as [|[k v] fields IH]; [done|].
  unfold passes_fields in *. cbn [forallb map snd]. by rewrite IH.
Qed.

Lemma encode_class_def_inv (cl : list string) (path : string)
    (names : list string) (def : list Z) (cl1 : list string) :
  encode_class_def cl path names = Ok (def, cl1) ->
  str_in path cl = true /\ def = [] /\ cl1 = cl.
Proof.
  unfold encode_class_def. destruct (str_in path cl).
  - by intros [= <- <-].
  - by rewrite encode_str_raises.
Qed.

Lemma encode_values_fixed (vs : list Value) :
  Forall fixed_spec vs ->
  forall (cl cl' : list string) (raw : list Z),
    encode_values vs cl = Ok (raw, cl') ->
    cl' = cl /\ forallb (passes cl) vs = true.
Proof.
  induction 1 as [|v vs Hv _ IH]; intros cl cl' raw.
  - by intros [= <- <-].
  - cbn [encode_values forallb].
    destruct (_encode_single_value cl v) as [[r cl1]|e] eqn:H1; cbn [bind];
      [|done].
    destruct (Hv _ _ _ H1) as [-> Hp].
    destruct (encode_values vs cl) as [[rs cl2]|e] eqn:H2; cbn [bind];
      [|done].
    destruct (IH _ _ _ H2) as [-> Hps]. intros [= <- <-].
    by rewrite Hp, Hps.
Qed.

Lemma encode_value_fixed (v : Value) : fixed_spec v.
Proof.
  induction v as [b|z|f|s|path fields IH|r] using Value_ind_fields;
    intros cl cl' raw.
  - by intros [= <- <-].
  - cbn [_encode_single_value]. destruct (encode_int z); cbn [bind]; [|done].
    by intros [= <- <-].
  - cbn [_encode_single_value]. destruct (encode_float f); cbn [bind];
      [|done].
    by intros [= <- <-].
  - by rewrite encode_value_str.
  - rewrite encode_object_unfold, passes_object.
    destruct (encode_class_def cl path (map fst fields)) as [[def cl1]|e]
      eqn:Hd; cbn [bind]; [|done].
    apply encode_class_def_inv in Hd as (Hin & -> & ->).
    destruct (encode_class_ref cl path) as [ref|e]; cbn [bind]; [|done].
    rewrite encode_fields_values.
    destruct (encode_values (map snd fields) cl) as [[vals cl2]|e] eqn:Hv;
      cbn [bind]; [|done].
    intros [= <- <-].
    assert (Hall : Forall fixed_spec (map snd fields)).
    { apply Forall_map. eapply Forall_impl; [exact IH|]. by intros []. }
    destruct (encode_values_fixed _ Hall _ _ _ Hv) as [-> Hps].
    split; [done|]. rewrite Hin. exact Hps.
  - done.
Qed.

(** X5. An encoding that returns leaves the class table as it was: no class
    is ever appended, since a class definition begins with a [str].  The
    value then holds no [str] and no object whose class the table lacks, at
    any depth; on the empty table of a new [Request] it is a bool, an
    integer or a float. *)
Theorem X5_class_table_fixed (v : Value) (cl cl' : list string)
    (raw : list Z) :
  _encode_single_value cl v = Ok (raw, cl') ->
  cl' = cl
  /\ passes cl v = true
  /\ (cl = [] ->
      match v with VBool _ | VInt _ | VFloat _ => True | _ => False end).
Proof.
  intros He. destruct (encode_value_fixed v cl cl' raw He) as [-> Hp].
  split; [done|]. split; [done|]. intros ->.
  destruct v; done.
Qed.

Lemma X5_class_table_fixed_witness :
  passes [] (VInt 300) = true.
Proof.
  eapply (X5_class_table_fixed (VInt 300) [] [] _). reflexivity.
Defined.

(** ** Every call raises *)

Lemma request_param_keys (self : DubboClient) (method : string)
    (args : list Value) :
  truthy (client_version self) = true ->
  request_param self method args !! "dubbo_version"%string
  = Some (EValue (VStr (client_dubbo_version self)))
  /\ is_Some (request_param self method args !! "path"%string)
  /\ is_Some (request_param self method args !! "version"%string)
  /\ is_Some (request_param self method args !! "method"%string)
  /\ is_Some (request_param self method args !! "arguments"%string).
Proof.
  intros Hv. unfold request_param. rewrite Hv.
  destruct (truthy (client_group self)); by simplify_map_eq.
Qed.

(** X8. A call returns no frame, whatever the method and the arguments:
    without a version the encoder raises [KeyError] at the key ['version'],
    and with one it raises [AttributeError] at the dubbo version, a [str] and
    the first value it encodes, before it looks at an argument. *)
Theorem X8_call_raises (self : DubboClient) (method : string)
    (args : list Value) :
  call_body self method args
  = Raise (if truthy (client_version self) then AttributeError else KeyError)
  /\ call_frame self method args
     = Raise (if truthy (client_version self) then AttributeError
              else KeyError).
Proof.
  destruct (truthy (client_version self)) eqn:Hv.
  - destruct (request_param_keys self method args Hv)
      as (Hd & Hp & Hve & Hm & Ha).
    assert (H : _encode_request_body
                  (Request_init (request_param self method args))
                = Raise AttributeError).
    { by eapply encode_request_body_str. }
    unfold call_body, call_frame, encode. by rewrite H.
  - by destruct (call_without_version self method args Hv) as (_ & H1 & H2).
Qed.

(** ** Missing keys, and what the frame does not depend on *)

(** X9. A request map that lacks one of the keys [dubbo_version], [path],
    [version], [method] or [arguments] raises [KeyError], whatever it holds
    under the other keys: the five entries are read before anything is
    encoded. *)
Theorem X9_missing_key (self : Request) (k : string) :
  k ∈ encoded_keys ->
  body self !! k = None ->
  _encode_request_body self = Raise KeyError
  /\ encode self = Raise KeyError.
Proof.
  intros Hk Hnone.
  assert (H : _encode_request_body self = Raise KeyError).
  { unfold _encode_request_body, getitem. unfold encoded_keys in Hk.
    repeat (apply elem_of_cons in Hk as [->|Hk];
            [rewrite Hnone;
             repeat match goal with
             | |- context [body self !! ?key] =>
               destruct (body self !! key); cbn [bind]; try done
             end|]).
    by apply elem_of_nil in Hk. }
  split; [done|]. unfold encode. by rewrite H.
Qed.

Lemma X9_missing_key_witness :
  _encode_request_body
    (Request_init
       (<["version"%string := EValue (VOther "None")]>
          (delete "arguments"%string request_m_42)))
  = Raise KeyError.
Proof.
  apply (X9_missing_key _ "arguments").
  - unfold encoded_keys. set_solver.
  - reflexivity.
Defined.




(** ** The length field, whatever the length *)

Lemma be_value_bound (l : list Z) :
  Forall is_byte l -> 0 <= be_value l < 256 ^ len l.
Proof.
  unfold len. induction l as [|b l IH] using rev_ind; intros Hl.
  - unfold be_value. simpl. lia.
  - apply Forall_app in Hl as [Hl Hb].
    inversion Hb as [|x xs Hb0 _]; subst x xs. clear Hb. rename Hb0 into Hb.
    specialize (IH Hl). rewrite be_value_snoc, length_app.
    rewrite Nat2Z.inj_add, Z.pow_add_r by lia.
    change (Z.of_nat (length [b])) with 1. rewrite Z.pow_1_r.
    unfold is_byte in Hb. set (P := 256 ^ Z.of_nat (length l)) in *. lia.
Qed.

(** X11. The length field is never cut: it has at least four bytes, and as
    many more as the length of the body needs, so that a body of 2^32 bytes
    or more gets a header longer than sixteen bytes. *)
Theorem X11_length_field_not_cut (b : list Z) :
  (4 <= length (get_request_body_length b))%nat
  /\ len b < 256 ^ len (get_request_body_length b)
  /\ be_value (get_request_body_length b) = len b.
Proof.
  destruct (get_request_body_length_spec b) as (Hval & Hbytes & _).
  split; [|split; [|done]].
  - unfold get_request_body_length.
    destruct (pad_front_spec
                (4 - length (num_2_byte_list (len b)))
                (num_2_byte_list (len b))) as (Hlen & _).
    rewrite Hlen. lia.
  - rewrite <- Hval at 1. by apply be_value_bound.
Qed.

(** ** [Object] *)

Lemma dict_set_keys (d : list (string * Value)) (k : string) (v : Value) :
  map fst (dict_set d k v)
  = if dict_contains d k then map fst d else map fst d ++ [k].
Proof.
  unfold dict_contains, str_in. induction d as [|[k' v'] d IH]; [done|].
  cbn [dict_set map fst existsb]. rewrite (String.eqb_sym k k').
  destruct (String.eqb_spec k' k) as [->|Hne]; cbn [orb map fst]; [done|].
  rewrite IH. by destruct (existsb _ _).
Qed.

Lemma dict_set_NoDup (d : list (string * Value)) (k : string) (v : Value) :
  NoDup (map fst d) -> NoDup (map fst (dict_set d k v)).
Proof.
  intros Hnd. rewrite dict_set_keys.
  destruct (dict_contains d k) eqn:Hc; [done|].
  apply str_in_not_elem_of in Hc. apply NoDup_app. split; [done|].
  split; [|apply NoDup_singleton].
  intros x Hx ->%list_elem_of_singleton. done.
Qed.

Lemma dict_del_keys (d : list (string * Value)) (k : string)
    (d' : list (string * Value)) :
  dict_del d k = Ok d' ->
  NoDup (map fst d) ->
  NoDup (map fst d') /\ (k ∉ map fst d')
  /\ (forall k', k' <> k -> object_getitem d' k' = object_getitem d k').
Proof.
  revert d'. induction d as [|[k0 v0] d IH]; intros d' Hdel Hnd; [done|].
  cbn [dict_del] in Hdel. cbn [map fst] in Hnd.
  apply NoDup_cons in Hnd as [Hk0 Hnd].
  destruct (String.eqb_spec k0 k) as [->|Hne].
  - injection Hdel as <-. split; [done|]. split; [done|].
    intros k' Hk'. cbn [object_getitem].
    by destruct (String.eqb_spec k k') as [->|_].
  - destruct (dict_del d k) as [r|e] eqn:Hr; [|done]. cbn [bind] in Hdel.
    injection Hdel as <-. destruct (IH r eq_refl Hnd) as (H1 & H2 & H3).
    cbn [map fst]. split; [|split].
    + apply NoDup_cons. split; [|done]. intros Hin. apply Hk0.
      clear -Hr Hin. revert r Hr Hin.
      induction d as [|[k1 v1] d IHd]; intros r Hr Hin; [done|].
      cbn [dict_del] in Hr. destruct (String.eqb k1 k).
      * injection Hr as <-. cbn [map fst]. by apply list_elem_of_further.
      * destruct (dict_del d k) as [r'|] eqn:Hr'; [|done].
        injection Hr as <-. cbn [map fst] in *.
        apply elem_of_cons in Hin as [->|Hin]; [apply list_elem_of_here|].
        apply list_elem_of_further. by eapply IHd.
    + intros Hin. apply elem_of_cons in Hin as [->|Hin]; done.
    + intros k' Hk'. cbn [object_getitem]. destruct (String.eqb k0 k');
        [done|by apply H3].
Qed.

(** X12. Reading an object after writing it: [o[k] = v] makes [o[k]] be [v]
    and changes no other entry; a key written again keeps its place in
    [keys()] and a new key comes last; [del o[k]] raises [KeyError] exactly
    when [k] is not a key, and otherwise removes [k] and no other entry. *)
Theorem X12_object_dictionary (d : list (string * Value)) (k : string)
    (v : Value) :
  NoDup (Object_keys d) ->
  Object_getitem (dict_set d k v) k = Ok v
  /\ (forall k', k' <> k ->
        Object_getitem (dict_set d k v) k' = Object_getitem d k')
  /\ Object_keys (dict_set d k v)
     = (if Object_contains d k then Object_keys d else Object_keys d ++ [k])
  /\ (Object_contains d k = false -> Object_delitem d k = Raise KeyError)
  /\ (Object_contains d k = true ->
      exists d', Object_delitem d k = Ok d'
                 /\ Object_contains d' k = false
                 /\ forall k', k' <> k ->
                      Object_getitem d' k' = Object_getitem d k').
Proof.
  unfold Object_keys, Object_getitem, Object_contains, Object_delitem.
  intros Hnd. split; [|split; [|split; [|split]]].
  - induction d as [|[k0 v0] d IH]; cbn [dict_set object_getitem].
    + by rewrite String.eqb_refl.
    + cbn [map fst] in Hnd. apply NoDup_cons in Hnd as [_ Hnd].
      destruct (String.eqb_spec k0 k) as [->|Hne]; cbn [object_getitem].
      * by rewrite String.eqb_refl.
      * destruct (String.eqb_spec k0 k); [done|]. by apply IH.
  - intros k' Hk'. clear Hnd.
    induction d as [|[k0 v0] d IH]; cbn [dict_set object_getitem].
    + by destruct (String.eqb_spec k k').
    + destruct (String.eqb_spec k0 k) as [->|Hne]; cbn [object_getitem].
      * by destruct (String.eqb_spec k k').
      * by rewrite IH.
  - apply dict_set_keys.
  - intros Hc. apply str_in_not_elem_of in Hc. clear Hnd.
    induction d as [|[k0 v0] d IH]; [done|]. cbn [map fst] in Hc.
    apply not_elem_of_cons in Hc as [Hne Hc]. cbn [dict_del].
    destruct (String.eqb_spec k0 k) as [->|_]; [done|]. by rewrite IH.
  - intros Hc. apply str_in_elem_of in Hc.
    assert (Hex : exists d', dict_del d k = Ok d').
    { clear Hnd. induction d as [|[k0 v0] d IH];
        [by apply elem_of_nil in Hc|].
      cbn [dict_del]. destruct (String.eqb_spec k0 k) as [->|Hne];
        [by eexists|].
      cbn [map fst] in Hc. apply elem_of_cons in Hc as [->|Hc]; [done|].
      destruct (IH Hc) as [r ->]. by eexists. }
    destruct Hex as [d' Hd']. exists d'. split; [done|].
    destruct (dict_del_keys d k d' Hd' Hnd) as (_ & Hnot & Hother).
    split; [by apply str_in_not_elem_of|done].
Qed.

Lemma X12_object_dictionary_witness :
  Object_getitem (dict_set [("x"%string, VInt 1)] "x" (VInt 2)) "x"
  = Ok (VInt 2).
Proof.
  apply (X12_object_dictionary [("x"%string, VInt 1)] "x" (VInt 2)).
  apply NoDup_cons. split; [apply not_elem_of_nil|apply NoDup_nil_2].
Defined.

(** X13. An object made by [Object(path)] and then any writes and deletes has
    no key twice; so the encoder, which reads [value[field_name]] for each
    name of [keys()], emits the field values once each, in the order of
    [keys()]. *)
Theorem X13_object_fields_once (d : list (string * Value)) (key value : Value)
    (d' : list (string * Value)) (cl : list string) :
  NoDup (Object_keys d) ->
  Object_setitem d key value = Ok d' \/ (exists k, Object_delitem d k = Ok d') ->
  NoDup (Object_keys d')
  /\ encode_fields_by_key d' (Object_keys d') cl = encode_fields d' cl.
Proof.
  unfold Object_keys, Object_setitem, Object_delitem. intros Hnd Hop.
  assert (Hnd' : NoDup (map fst d')).
  { destruct Hop as [Hset|[k Hdel]].
    - destruct key; try done. injection Hset as <-. by apply dict_set_NoDup.
    - by eapply dict_del_keys. }
  split; [done|]. by apply encode_fields_by_key_eq.
Qed.

Lemma X13_object_fields_once_witness :
  NoDup (Object_keys [("x"%string, VInt 1); ("y"%string, VStr "s")])
  /\ encode_fields_by_key [("x"%string, VInt 1); ("y"%string, VStr "s")]
       (Object_keys [("x"%string, VInt 1); ("y"%string, VStr "s")]) []
     = encode_fields [("x"%string, VInt 1); ("y"%string, VStr "s")] [].
Proof.
  apply (X13_object_fields_once [("x"%string, VInt 1)] (VStr "y")
           (VStr "s")).
  - apply NoDup_cons. split; [apply not_elem_of_nil|apply NoDup_nil_2].
  - left. reflexivity.
Defined.

(** ** The provider filter as it is *)

Lemma filter_all {A : Type} (f : A -> bool) (l : list A) :
  (forall x, f x = true) -> List.filter f l = l.
Proof.
  intros Hf. induction l as [|x l IH]; [done|]. simpl. by rewrite Hf, IH.
Qed.

(** X14. A consumer with no group, or with the group ["*"], keeps every
    provider, whatever version it asks for and whatever version the
    providers have. *)
Theorem X14_filter_any_group (providers : list provider)
    (consumer_group consumer_version : option string) :
  consumer_group = None \/ consumer_group = Some "*"%string ->
  _filter_with_group_version providers consumer_group consumer_version
  = providers.
Proof.
  intros Hg. unfold _filter_with_group_version. apply filter_all.
  intros p. unfold keep_provider. by destruct Hg as [-> | ->].
Qed.

Lemma X14_filter_any_group_witness :
  _filter_with_group_version [provider_g1_v2] (Some "*"%string)
    (Some "9.9.9"%string)
  = [provider_g1_v2].
Proof. apply X14_filter_any_group. by right. Defined.

Lemma filter_ext_in {A : Type} (f g : A -> bool) (l : list A) :
  (forall x, x ∈ l -> f x = g x) -> List.filter f l = List.filter g l.
Proof.
  induction l as [|x l IH]; intros H; [done|]. simpl.
  rewrite (H x) by apply list_elem_of_here.
  rewrite IH; [done|]. intros y Hy. apply H. by apply list_elem_of_further.
Qed.

(** X15. Among providers that have no [default.group] field, the version
    the consumer asks for plays no part: the filter gives the same list for
    any two consumer versions. *)
Theorem X15_filter_version_unused (providers : list provider)
    (consumer_group cv cv' : option string) :
  (forall p, p ∈ providers -> fields p !! "default.group"%string = None) ->
  _filter_with_group_version providers consumer_group cv
  = _filter_with_group_version providers consumer_group cv'.
Proof.
  intros Hno. unfold _filter_with_group_version. apply filter_ext_in.
  intros p Hp. unfold keep_provider. rewrite (Hno p Hp).
  replace (is_contain consumer_group None) with false; [done|].
  unfold is_contain. by destruct (negb (truthy consumer_group)).
Qed.

Lemma X15_filter_version_unused_witness :
  _filter_with_group_version [provider_g1_v2] (Some "g1"%string)
    (Some "1.0.0"%string)
  = _filter_with_group_version [provider_g1_v2] (Some "g1"%string)
      (Some "2.0.0"%string).
Proof.
  apply X15_filter_version_unused.
  intros p ->%list_elem_of_singleton. reflexivity.
Defined.

Lemma split_comma_cons (s : string) :
  exists h t, split_comma s = h :: t.
Proof.
  induction s as [|c s (h & t & IH)]; [by eexists _, _|].
  cbn [split_comma]. destruct (Ascii.eqb c ","); [by eexists _, _|].
  rewrite IH. by eexists _, _.
Qed.

Lemma split_comma_no_comma (s x : string) :
  x ∈ split_comma s -> has_comma x = false.
Proof.
  revert x. induction s as [|c s IH]; intros x.
  - cbn [split_comma]. by intros ->%list_elem_of_singleton.
  - cbn [split_comma]. destruct (Ascii.eqb c ",") eqn:Hc.
    + intros [->|Hx]%elem_of_cons; [done|by apply IH].
    + destruct (split_comma_cons s) as (h & t & Hs). rewrite Hs in *.
      intros [->|Hx]%elem_of_cons.
      * cbn [has_comma]. rewrite Hc. cbn [orb]. apply IH.
        apply list_elem_of_here.
      * apply IH. by apply list_elem_of_further.
Qed.

Lemma split_comma_app_no_comma (x rest : string) :
  has_comma x = false ->
  split_comma (x ++ String "," rest) = x :: split_comma rest.
Proof.
  induction x as [|c x IH]; intros Hx; [done|].
  cbn [has_comma] in Hx. apply orb_false_elim in Hx as [Hc Hx].
  simpl. rewrite Hc. change (split_comma (x +:+ String "," rest))
    with (split_comma (x ++ String "," rest)). by rewrite (IH Hx).
Qed.

Lemma split_comma_single (x : string) :
  has_comma x = false -> split_comma x = [x].
Proof.
  induction x as [|c x IH]; intros Hx; [done|].
  cbn [has_comma] in Hx. apply orb_false_elim in Hx as [Hc Hx].
  cbn [split_comma]. by rewrite Hc, (IH Hx).
Qed.

(** Splitting undoes joining, for a list that is not empty and whose items
    have no comma. *)
Lemma split_join_comma (items : list string) :
  items <> [] -> Forall (fun x => has_comma x = false) items ->
  split_comma (join_comma items) = items.
Proof.
  induction items as [|x items IH]; intros Hne Hall; [done|].
  apply Forall_cons in Hall as [Hx Hall]. destruct items as [|y items].
  - by apply split_comma_single.
  - change (join_comma (x :: y :: items))
      with (x ++ String "," (join_comma (y :: items)))%string.
    rewrite split_comma_app_no_comma by done. by rewrite IH.
Qed.

(** X16. [is_contain] accepts a value only if it is a non-empty string
    without a comma that is one of the items of the comma-separated consumer
    value; and for a consumer value made by joining comma-free items, the
    non-empty values it accepts are exactly the items. *)
Theorem X16_is_contain (items : list string) (x : string)
    (c v : option string) :
  (is_contain c v = true ->
   exists cs vs, c = Some cs /\ v = Some vs /\ vs <> ""%string
                 /\ has_comma vs = false /\ vs ∈ split_comma cs)
  /\ (items <> [] -> Forall (fun i => has_comma i = false) items ->
      x <> ""%string ->
      (is_contain (Some (join_comma items)) (Some x) = true <-> x ∈ items)).
Proof.
  split.
  - unfold is_contain, truthy. destruct c as [cs|]; [|done].
    destruct v as [vs|]; [|by destruct (negb _)].
    destruct (String.eqb_spec cs ""); [done|].
    destruct (String.eqb_spec vs ""); [done|]. cbn [negb default].
    intros Hin%str_in_elem_of. exists cs, vs.
    repeat split; try done. by eapply split_comma_no_comma.
  - intros Hne Hall Hx. unfold is_contain, truthy. cbn [default].
    destruct (String.eqb_spec x ""); [done|]. cbn [negb].
    destruct (String.eqb_spec (join_comma items) "") as [He|_]; cbn [negb].
    + split; [done|]. intros Hin. exfalso.
      destruct items as [|a [|b rest]]; [done| |].
      * simpl in He. subst a. by apply list_elem_of_singleton in Hin.
      * simpl in He. by destruct a.
    + unfold id. rewrite str_in_elem_of, split_join_comma by done. done.
Qed.

Lemma X16_is_contain_witness :
  is_contain (Some (join_comma ["g1"%string; "g2"%string]))
    (Some "g2"%string) = true
  <-> "g2"%string ∈ ["g1"%string; "g2"%string].
Proof.
  apply (X16_is_contain ["g1"%string; "g2"%string] "g2" None None).
  - discriminate.
  - repeat constructor.
  - discriminate.
Defined.

(** ** The router as it is *)

Lemma routing_loop_index (hs : list string) (hw : list Z) (hit : Z)
    (h : string) (n : nat) :
  forall k : nat,
    routing_loop hs hw hit (seq k n) = Ok h ->
    exists i : nat,
      (k <= i < k + n)%nat /\ hs !! i = Some h
      /\ hit <= sum_list (take (i + 1) hw)
      /\ forall j : nat, (k <= j < i)%nat ->
           sum_list (take (j + 1) hw) < hit.
Proof.
  induction n as [|n IH]; intros k Hr; [done|].
  cbn [seq routing_loop] in Hr.
  destruct (Z.leb_spec hit (sum_list (take (k + 1) hw))) as [Hle|Hgt].
  - destruct (hs !! k) as [h'|] eqn:Hk; [|done]. injection Hr as ->.
    exists k. split; [lia|]. split; [done|]. split; [done|]. lia.
  - destruct (IH (S k) Hr) as (i & Hi & Hh & Hhit & Hbefore).
    exists i. split; [lia|]. split; [done|]. split; [done|].
    intros j Hj. destruct (decide (j = k)) as [->|Hne]; [done|].
    apply Hbefore. lia.
Qed.

(** X17. Whatever the draw, a host the router returns is one of the hosts
    listed for the interface. *)
Theorem X17_router_returns_listed_host (self : ZkRegister)
    (interface : string) (rnd : Z) (h : string) :
  _routing_with_wight self interface rnd = Ok h ->
  exists hs, hosts self !! interface = Some hs /\ h ∈ hs.
Proof.
  unfold _routing_with_wight.
  destruct (hosts self !! interface) as [hs|]; [|done].
  destruct (bool_decide (hs = [])); [done|]. intros Hr. exists hs.
  split; [done|].
  assert (Hlookup : forall i : nat,
             match hs !! i with Some h' => Ok h' | None => Raise IndexError end
             = Ok h -> h ∈ hs).
  { intros i. destruct (hs !! i) as [h'|] eqn:Hi; [|done].
    intros [= ->]. by eapply list_elem_of_lookup_2. }
  destruct (weights self !! interface) as [ws|]; [|by eapply Hlookup].
  destruct (bool_decide (ws = ∅)); [by eapply Hlookup|].
  unfold randint in Hr. destruct (_ <? _); [done|]. cbn [bind] in Hr.
  destruct (routing_loop_index _ _ _ _ _ _ Hr) as (i & _ & Hi & _).
  by eapply list_elem_of_lookup_2.
Qed.

Lemma X17_router_returns_listed_host_witness :
  exists hs, hosts zk_25_75 !! "I"%string = Some hs /\ "B"%string ∈ hs.
Proof.
  apply (X17_router_returns_listed_host zk_25_75 "I" 60 "B"). reflexivity.
Defined.

(** X18. With weights configured for the interface, the host the router
    returns is the first one, in the order of the host list, whose weight
    added to the weights of the hosts before it reaches the draw. *)
Theorem X18_router_first_index (self : ZkRegister) (interface : string)
    (hs : list string) (ws : gmap string Z) (hit : Z) (h : string) :
  hosts self !! interface = Some hs ->
  weights self !! interface = Some ws ->
  ws <> ∅ ->
  _routing_with_wight self interface hit = Ok h ->
  exists i : nat,
    hs !! i = Some h
    /\ hit <= sum_list (take (i + 1) (hosts_weight_of ws hs))
    /\ forall j : nat, (j < i)%nat ->
         sum_list (take (j + 1) (hosts_weight_of ws hs)) < hit.
Proof.
  intros Hh Hw Hne. unfold _routing_with_wight. rewrite Hh, Hw.
  destruct (bool_decide (hs = [])); [done|].
  rewrite bool_decide_eq_false_2 by done. unfold randint.
  destruct (_ <? _); [done|]. cbn [bind]. intros Hr.
  destruct (routing_loop_index _ _ _ _ _ _ Hr) as (i & _ & Hi & Hhit & Hb).
  exists i. split; [done|]. split; [done|]. intros j Hj. apply Hb. lia.
Qed.

Lemma X18_router_first_index_witness :
  exists i : nat,
    ["A"%string; "B"%string] !! i = Some "B"%string
    /\ 60 <= sum_list
               (take (i + 1)
                  (hosts_weight_of
                     (<["A"%string := 25]> (<["B"%string := 75]> ∅))
                     ["A"%string; "B"%string]))
    /\ forall j : nat, (j < i)%nat ->
         sum_list
           (take (j + 1)
              (hosts_weight_of
                 (<["A"%string := 25]> (<["B"%string := 75]> ∅))
                 ["A"%string; "B"%string])) < 60.
Proof.
  apply (X18_router_first_index zk_25_75 "I").
  - reflexivity.
  - reflexivity.
  - vm_compute. discriminate.
  - reflexivity.
Defined.

(** X19. With hosts listed and weights configured for the interface, and
    weights of the hosts (default 100) whose sum is zero or less, the router
    raises [ValueError]: [random.randint] is asked for a value in an empty
    range. *)
Theorem X19_router_no_weight (self : ZkRegister) (interface : string)
    (hs : list string) (ws : gmap string Z) (rnd : Z) :
  hosts self !! interface = Some hs ->
  hs <> [] ->
  weights self !! interface = Some ws ->
  ws <> ∅ ->
  sum_list (hosts_weight_of ws hs) <= 0 ->
  _routing_with_wight self interface rnd = Raise ValueError.
Proof.
  intros Hh Hhs Hw Hne Hsum. unfold _routing_with_wight. rewrite Hh, Hw.
  rewrite !bool_decide_eq_false_2 by done. unfold randint.
  destruct (Z.ltb_spec (sum_list (hosts_weight_of ws hs) - 1) 0); [done|lia].
Qed.

Lemma X19_router_no_weight_witness :
  _routing_with_wight
    (mkZkRegister (<["I"%string := ["A"%string]]> ∅)
       (<["I"%string := <["A"%string := 0]> ∅]> ∅)) "I" 0
  = Raise ValueError.
Proof.
  eapply (X19_router_no_weight _ "I" ["A"%string] (<["A"%string := 0]> ∅)).
  - reflexivity.
  - discriminate.
  - reflexivity.
  - vm_compute. discriminate.
  - vm_compute. discriminate.
Defined.

(** ** The path of the providers and the interface read back from it *)

Lemma split_on_cons (sep : ascii) (s : string) :
  exists h t, split_on sep s = h :: t.
Proof.
  induction s as [|c s (h & t & IH)]; [by eexists _, _|].
  cbn [split_on]. destruct (Ascii.eqb c sep); [by eexists _, _|].
  rewrite IH. by eexists _, _.
Qed.

Lemma split_on_app (sep : ascii) (x rest : string) :
  has_char sep x = false ->
  split_on sep (x ++ String sep rest) = x :: split_on sep rest.
Proof.
  induction x as [|c x IH]; intros Hx.
  - simpl. by rewrite Ascii.eqb_refl.
  - cbn [has_char] in Hx. apply orb_false_elim in Hx as [Hc Hx].
    simpl. rewrite Hc.
    change (split_on sep (x +:+ String sep rest))
      with (split_on sep (x ++ String sep rest)). by rewrite (IH Hx).
Qed.

Lemma has_char_split (sep : ascii) (s : string) :
  has_char sep s = true ->
  exists x rest, s = (x ++ String sep rest)%string /\ has_char sep x = false.
Proof.
  induction s as [|c s IH]; [done|]. cbn [has_char].
  destruct (Ascii.eqb_spec c sep) as [->|Hne]; cbn [orb].
  - intros _. by exists EmptyString, s.
  - intros (x & rest & -> & Hx)%IH. exists (String c x), rest.
    split; [done|]. cbn [has_char].
    destruct (Ascii.eqb_spec c sep); [done|]. done.
Qed.

Lemma append_assoc (a b c : string) :
  ((a ++ b) ++ c)%string = (a ++ (b ++ c))%string.
Proof.
  induction a as [|x a IH]; [done|].
  change (String x ((a ++ b) ++ c) = String x (a ++ (b ++ c)))%string.
  by rewrite IH.
Qed.

Lemma append_length (a b : string) :
  String.length (a ++ b) = (String.length a + String.length b)%nat.
Proof.
  induction a as [|c a IH]; [done|].
  change (S (String.length (a ++ b))
          = S (String.length a + String.length b))%nat.
  by rewrite IH.
Qed.

Lemma before_char_no_char (sep : ascii) (s : string) :
  has_char sep s = false -> before_char sep s = s.
Proof.
  induction s as [|c s IH]; [done|]. cbn [has_char before_char].
  intros [Hc Hs]%orb_false_elim. rewrite Hc. by rewrite (IH Hs).
Qed.

Lemma before_char_app (sep : ascii) (x rest : string) :
  has_char sep x = false ->
  before_char sep (x ++ String sep rest) = x.
Proof.
  induction x as [|c x IH].
  - intros _. simpl. by rewrite Ascii.eqb_refl.
  - cbn [has_char]. intros [Hc Hx]%orb_false_elim.
    change (before_char sep (String c (x ++ String sep rest)) = String c x).
    cbn [before_char]. rewrite Hc. by rewrite (IH Hx).
Qed.

Lemma has_char_app (sep : ascii) (x rest : string) :
  has_char sep (x ++ String sep rest) = true.
Proof.
  induction x as [|c x IH].
  - simpl. by rewrite Ascii.eqb_refl.
  - change (has_char sep (String c (x ++ String sep rest)) = true).
    cbn [has_char]. rewrite IH. by destruct (Ascii.eqb c sep).
Qed.

(** X20. From the path that discovery lists, [/dubbo/I/providers], the
    watch reads the part of the interface name before its first ['/']: the
    name itself exactly when it has no ['/'], and another, shorter string
    when it has one. *)
Theorem X20_interface_of_path (interface : string) :
  interface_of_path (DUBBO_ZK_PROVIDERS interface)
  = Ok (before_char "/" interface)
  /\ (has_char "/" interface = false -> before_char "/" interface = interface)
  /\ (has_char "/" interface = true ->
      before_char "/" interface <> interface
      /\ exists rest : string,
          interface = (before_char "/" interface ++ String "/" rest)%string).
Proof.
  assert (Hcases : has_char "/" interface = false
                   \/ exists x rest, interface = (x ++ String "/" rest)%string
                                     /\ has_char "/" x = false).
  { destruct (has_char "/" interface) eqn:Hc; [right|by left].
    by apply has_char_split. }
  unfold interface_of_path, DUBBO_ZK_PROVIDERS.
  change ("/dubbo/" ++ interface ++ "/providers")%string
    with ("" ++ String "/" ("dubbo" ++ String "/"
            (interface ++ String "/" "providers")))%string.
  rewrite (split_on_app "/" "") by done.
  rewrite (split_on_app "/" "dubbo") by done.
  destruct Hcases as [Hno|(x & rest & -> & Hx)].
  - rewrite (split_on_app "/" interface) by done.
    rewrite (before_char_no_char _ _ Hno), Hno. by split.
  - rewrite (append_assoc x (String "/" rest) (String "/" "providers")).
    change (String "/" rest ++ String "/" "providers")%string
      with (String "/" (rest ++ String "/" "providers")).
    rewrite (split_on_app "/" x) by done.
    rewrite (before_char_app "/" x rest Hx).
    split; [done|]. split.
    + by rewrite has_char_app.
    + intros _. split; [|by exists rest].
      intros Heq. apply (f_equal String.length) in Heq.
      rewrite append_length in Heq. simpl in Heq. lia.
Qed.

Lemma X20_interface_of_path_witness :
  before_char "/" "com.example/Svc" <> "com.example/Svc"%string
  /\ exists rest : string,
      "com.example/Svc"%string
      = (before_char "/" "com.example/Svc" ++ String "/" rest)%string.
Proof.
  apply (proj2 (proj2 (X20_interface_of_path "com.example/Svc"))).
  reflexivity.
Defined.

(** ** Consumer registration *)

(** X21. [_register_consumer] reads the first provider only.  It raises
    [KeyError] when that provider has no [dubbo], [interface] or [methods]
    field; otherwise the consumer URL is [consumer://], the address, the
    path of the provider, [?], and the parameters joined by [&] in the order
    of their keys: [application], [category], [check], [connected], [dubbo],
    [interface], [methods], [pid], [revision] if the provider has a
    non-empty one, [side], [timestamp], and [version] if the provider has a
    non-empty one; the node is made under [/dubbo/I/consumers] for the
    [interface] field [I] of the provider. *)
Theorem X21_register_consumer (application_name ip pid timestamp : string)
    (p : provider) (rest : list provider) :
  ((fields p !! "dubbo"%string = None
    \/ fields p !! "interface"%string = None
    \/ fields p !! "methods"%string = None) ->
   _register_consumer application_name ip pid timestamp (p :: rest)
   = Raise KeyError)
  /\ (forall d i m : string,
        fields p !! "dubbo"%string = Some d ->
        fields p !! "interface"%string = Some i ->
        fields p !! "methods"%string = Some m ->
        _register_consumer application_name ip pid timestamp (p :: rest)
        = Ok (DUBBO_ZK_CONSUMERS i,
              (("consumer://" ++ ip ++ provider_path p ++ "?")
               ++ join "&"
                    (["application=" ++ application_name;
                      "category=consumers"; "check=false"; "connected=true";
                      "dubbo=" ++ d; "interface=" ++ i; "methods=" ++ m;
                      "pid=" ++ pid]
                     ++ (if truthy (fields p !! "revision"%string)
                         then ["revision="
                               ++ default "" (fields p !! "revision"%string)]
                         else [])
                     ++ ["side=consumer"; "timestamp=" ++ timestamp]
                     ++ (if truthy (fields p !! "version"%string)
                         then ["version="
                               ++ default "" (fields p !! "version"%string)]
                         else [])))%string)).
Proof.
  unfold _register_consumer, field. cbn [lookup list_lookup]. split.
  - intros [H|[H|H]].
    + by rewrite H.
    + rewrite H. by destruct (fields p !! "dubbo"%string).
    + rewrite H. destruct (fields p !! "dubbo"%string); [|done].
      by destruct (fields p !! "interface"%string).
  - intros d i m -> -> ->. cbn [bind].
    destruct (truthy (fields p !! "revision"%string)),
      (truthy (fields p !! "version"%string)); reflexivity.
Qed.

Lemma X21_register_consumer_witness :
  _register_consumer "app" "10.0.0.9" "77" "1700000000000"
    [parse_url_example "10.0.0.1:20880"]
  = Ok ("/dubbo/com.example.Svc/consumers"%string,
        ("consumer://10.0.0.9/com.example.Svc?application=app"
         ++ "&category=consumers&check=false&connected=true&dubbo=2.6.1"
         ++ "&interface=com.example.Svc&methods=ping&pid=77"
         ++ "&side=consumer&timestamp=1700000000000")%string).
Proof.
  apply (proj2 (X21_register_consumer "app" "10.0.0.9" "77" "1700000000000"
                  (parse_url_example "10.0.0.1:20880") [])
           "2.6.1" "com.example.Svc" "ping")%string; reflexivity.
Defined.

(** ** Discovery and the provider watch *)

Lemma listed_providers_kept (parse_url : string -> provider)
    (children : list string) (cg cv : option string) (p : provider) :
  p ∈ listed_providers parse_url children cg cv ->
  kept_provider parse_url children cg cv p.
Proof.
  unfold listed_providers, _filter_with_group_version, kept_provider.
  intros Hp%list_elem_of_In. apply filter_In in Hp as [Hp Hkeep].
  apply filter_In in Hp as [Hp Hs]. apply in_map_iff in Hp as (c & Hc & Hin).
  split; [exists c; split; [by apply list_elem_of_In|done]|].
  split; [by apply String.eqb_eq|done].
Qed.

Lemma routing_member (self : ZkRegister) (interface : string) (rnd : Z)
    (h : string) :
  _routing_with_wight self interface rnd = Ok h ->
  exists hs, hosts self !! interface = Some hs /\ h ∈ hs.
Proof.
  unfold _routing_with_wight.
  destruct (hosts self !! interface) as [hs|]; [|done].
  destruct (bool_decide (hs = [])); [done|]. intros Hr. exists hs.
  split; [done|].
  destruct (weights self !! interface) as [ws|].
  - destruct (bool_decide (ws = ∅)).
    + destruct (hs !! Z.to_nat rnd) as [h'|] eqn:Hi; [|done].
      injection Hr as ->. by eapply list_elem_of_lookup_2.
    + unfold randint in Hr. destruct (_ <? _); [done|]. cbn [bind] in Hr.
      destruct (routing_loop_index _ _ _ _ _ _ Hr) as (i & _ & Hi & _).
      by eapply list_elem_of_lookup_2.
  - destruct (hs !! Z.to_nat rnd) as [h'|] eqn:Hi; [|done].
    injection Hr as ->. by eapply list_elem_of_lookup_2.
Qed.

Lemma routing_frame (self self' : ZkRegister) (interface : string) (rnd : Z) :
  hosts self' !! interface = hosts self !! interface ->
  weights self' = weights self ->
  _routing_with_wight self' interface rnd
  = _routing_with_wight self interface rnd.
Proof. intros Hh Hw. unfold _routing_with_wight. by rewrite Hh, Hw. Qed.

(** X22. Discovery for an interface raises [RegisterException] when no
    listed provider is kept.  When it returns, the hosts of the interface
    are the hosts of the kept providers, in the order ZooKeeper listed them,
    and there is at least one; the weights and the routing of every other
    interface are as before; and a host the router then returns for the
    interface is the host of a provider that was listed, has the scheme
    [dubbo] and passes the filter. *)
Theorem X22_discovery (parse_url : string -> provider)
    (application_name ip pid timestamp : string) (self : ZkRegister)
    (children : list string) (interface : string)
    (cg cv : option string) :
  (listed_providers parse_url children cg cv = [] ->
   _get_providers_from_zk parse_url application_name ip pid timestamp self
     children interface cg cv = Raise RegisterException)
  /\ (forall self' : ZkRegister,
        _get_providers_from_zk parse_url application_name ip pid timestamp
          self children interface cg cv = Ok self' ->
        hosts self' !! interface
        = Some (map host (listed_providers parse_url children cg cv))
        /\ listed_providers parse_url children cg cv <> []
        /\ weights self' = weights self
        /\ (forall (other : string) (rnd : Z),
              other <> interface ->
              _routing_with_wight self' other rnd
              = _routing_with_wight self other rnd)
        /\ (forall (rnd : Z) (h : string),
              _routing_with_wight self' interface rnd = Ok h ->
              exists p, kept_provider parse_url children cg cv p
                        /\ host p = h)).
Proof.
  unfold _get_providers_from_zk. split; [by intros ->|].
  intros self'. destruct (listed_providers parse_url children cg cv)
    as [|p ps] eqn:Hl; [done|].
  destruct (_register_consumer _ _ _ _ _) as [u|e]; cbn [bind]; [|done].
  intros [= <-]. cbn [hosts weights].
  split; [by rewrite lookup_insert_eq|]. split; [done|]. split; [done|].
  split.
  - intros other rnd Hne. apply routing_frame; cbn [hosts weights]; [|done].
    by rewrite lookup_insert_ne.
  - intros rnd h (hs & Hhs & Hin)%routing_member. cbn [hosts] in Hhs.
    rewrite lookup_insert_eq in Hhs. injection Hhs as <-.
    apply list_elem_of_In in Hin.
    change (In h (map host (p :: ps))) in Hin.
    apply in_map_iff in Hin as (q & Hq & Hin).
    exists q. split; [|done]. apply listed_providers_kept.
    rewrite Hl. by apply list_elem_of_In.
Qed.

Lemma X22_discovery_witness :
  exists self' : ZkRegister,
    _get_providers_from_zk parse_url_example "app" "10.0.0.9" "77" "1"
      (mkZkRegister ∅ ∅) ["10.0.0.1:20880"%string] "com.example.Svc" None None
    = Ok self'
    /\ hosts self' !! "com.example.Svc"%string
       = Some ["10.0.0.1:20880"%string].
Proof.
  eexists. split; [reflexivity|].
  apply (proj2 (X22_discovery parse_url_example "app" "10.0.0.9" "77" "1"
                  (mkZkRegister ∅ ∅) ["10.0.0.1:20880"%string]
                  "com.example.Svc" None None)).
  reflexivity.
Defined.

(** X23. A provider watch event sets the hosts of the interface named in
    the event path to the hosts of the kept providers.  When no provider is
    kept the list is empty and the router raises [RegisterException] for
    that interface until a later event lists a kept provider; a host the
    router returns after an event is the host of a kept provider of that
    event; and the routing of every other interface is as before. *)
Theorem X23_watch_children (parse_url : string -> provider)
    (cg cv : option string) (self self' : ZkRegister) (path : string)
    (children : list string) (interface : string) :
  interface_of_path path = Ok interface ->
  _watch_children parse_url cg cv self path children = Ok self' ->
  hosts self' !! interface
  = Some (map host (listed_providers parse_url children cg cv))
  /\ weights self' = weights self
  /\ (listed_providers parse_url children cg cv = [] ->
      forall rnd, _routing_with_wight self' interface rnd
                  = Raise RegisterException)
  /\ (forall (rnd : Z) (h : string),
        _routing_with_wight self' interface rnd = Ok h ->
        exists p, kept_provider parse_url children cg cv p /\ host p = h)
  /\ (forall (other : string) (rnd : Z),
        other <> interface ->
        _routing_with_wight self' other rnd
        = _routing_with_wight self other rnd).
Proof.
  intros Hi. unfold _watch_children. rewrite Hi. cbn [bind].
  intros Hw.
  assert (Hself : self'
                  = mkZkRegister
                      (<[interface :=
                           map host (listed_providers parse_url children cg cv)]>
                         (hosts self)) (weights self)).
  { destruct (listed_providers parse_url children cg cv);
      by injection Hw as <-. }
  clear Hw. subst self'. cbn [hosts weights].
  split; [by rewrite lookup_insert_eq|]. split; [done|]. split; [|split].
  - intros Hnil rnd. unfold _routing_with_wight. cbn [hosts].
    by rewrite lookup_insert_eq, Hnil.
  - intros rnd h (hs & Hhs & Hin)%routing_member. cbn [hosts] in Hhs.
    rewrite lookup_insert_eq in Hhs. injection Hhs as <-.
    apply list_elem_of_In, in_map_iff in Hin as (q & Hq & Hin).
    exists q. split; [|done]. apply listed_providers_kept.
    by apply list_elem_of_In.
  - intros other rnd Hne. apply routing_frame; cbn [hosts weights]; [|done].
    by rewrite lookup_insert_ne.
Qed.

Lemma X23_watch_children_witness :
  _routing_with_wight
    (mkZkRegister (<["com.example.Svc"%string := []]>
                     (<["com.example.Svc"%string := ["h:1"%string]]> ∅)) ∅)
    "com.example.Svc" 0
  = Raise RegisterException.
Proof.
  eapply (X23_watch_children parse_url_example None None
            (mkZkRegister (<["com.example.Svc"%string := ["h:1"%string]]> ∅) ∅)
            _ "/dubbo/com.example.Svc/providers" [] "com.example.Svc").
  - reflexivity.
  - reflexivity.
  - reflexivity.
Defined.

(** ** The descriptor *)

(** X25. The parameter-type descriptor of a list of arguments is the
    descriptor of its first part followed by the descriptor of the rest, and
    it raises as soon as one part does: each argument contributes its own
    piece, in order. *)
Theorem X25_parameter_types_app (a b : list Value) :
  _get_parameter_types (a ++ b)
  = let* ta := _get_parameter_types a in
    let* tb := _get_parameter_types b in
    Ok (ta ++ tb)%string.
Proof.
  induction a as [|v a IH].
  - cbn [app _get_parameter_types bind].
    by destruct (_get_parameter_types b).
  - cbn [app _get_parameter_types]. rewrite IH.
    destruct (match v with
              | VBool _ => Ok "Z"%string
              | VInt z =>
                if (MIN_INT_32 <=? z) && (z <=? MAX_INT_32)
                then Ok "I"%string else Ok "J"%string
              | VFloat _ => Ok "D"%string
              | VStr _ => Ok "Ljava/lang/String;"%string
              | VObject path _ => Ok ("L" ++ replace_dot path ++ ";")%string
              | VOther _ => Raise HessianTypeError
              end) as [t|e]; cbn [bind]; [|done].
    destruct (_get_parameter_types a) as [ta|e]; cbn [bind]; [|done].
    destruct (_get_parameter_types b) as [tb|e]; cbn [bind]; [|done].
    by rewrite append_assoc.
Qed.

Lemma X3_float_errors_witness :
  OverflowError = OverflowError \/ OverflowError = ValueError.
Proof.
  apply (proj2 (proj2 (X3_float_errors (S754_infinity true) []))).
  reflexivity.
Defined.
